(** * The Ax optimization service (services/ax_service.py)

    A shallow embedding of the FastAPI service that fronts the Ax
    optimization client, and the properties of its request handlers.

    The handlers are thin: each one looks the experiment up in the
    process-wide dictionary [experiments], calls one method of the
    [AxClient] object and wraps what comes back.  [AxClient] is an imported
    library, so it appears here as an interface ([Engine]) whose
    signature is read off the call sites.  Handlers are functions from
    the service state to a result and a new state; a raised
    [HTTPException] is the left injection of the result. *)

From Stdlib Require Import QArith Ascii.
From stdpp Require Import gmap strings list fin_maps sorting.

Local Open Scope string_scope.

(** ** Python values *)

(** A Python [float]: a number, [float('inf')], [float('-inf')] or
    [float('nan')]; the JSON decoder accepts the literals [Infinity],
    [-Infinity] and [NaN].  The service does no arithmetic on floats, so
    the numbers are carried as rationals. *)
Inductive float : Type :=
| Finite (q : Q)
| Infinity (negative : bool)
| NaN.

(** [x < y] on floats: false as soon as one side is NaN. *)
Definition float_lt (x y : float) : bool :=
  match x, y with
  | Finite a, Finite b => negb (Qle_bool b a)
  | Finite _, Infinity negative => negb negative
  | Infinity negative, Finite _ => negative
  | Infinity a, Infinity b => a && negb b
  | _, _ => false
  end.



(** [typing.Any] as it arrives from a JSON body. *)
#[local] Unset Elimination Schemes.
Inductive Any : Type :=
| PyNone
| PyBool (b : bool)
| PyInt (z : Z)
| PyFloat (x : float)
| PyStr (s : string)
| PyList (l : list Any)
| PyDict (d : list (string * Any)).
#[local] Set Elimination Schemes.

(** Induction on values, through the lists and the dictionaries. *)
Section AnyInduction.
Variable P : Any → Prop.
Hypothesis HNone : P PyNone.
Hypothesis HBool : ∀ b, P (PyBool b).
Hypothesis HInt : ∀ z, P (PyInt z).
Hypothesis HFloat : ∀ x, P (PyFloat x).
Hypothesis HStr : ∀ s, P (PyStr s).
Hypothesis HList : ∀ l, Forall P l → P (PyList l).
Hypothesis HDict : ∀ d, Forall (λ kv, P kv.2) d → P (PyDict d).

Fixpoint Any_ind (v : Any) : P v :=
  match v with
  | PyNone => HNone
  | PyBool b => HBool b
  | PyInt z => HInt z
  | PyFloat x => HFloat x
  | PyStr s => HStr s
  | PyList l =>
    HList l ((fix go (l : list Any) : Forall P l :=
                match l return Forall P l with
                | [] => List.Forall_nil P
                | x :: l => List.Forall_cons P x l (Any_ind x) (go l)
                end) l)
  | PyDict d =>
    HDict d ((fix go (d : list (string * Any))
                : Forall (λ kv, P kv.2) d :=
                match d return Forall (λ kv, P kv.2) d with
                | [] => List.Forall_nil _
                | kv :: d =>
                  List.Forall_cons (λ kv, P kv.2) kv d
                    (match kv return P kv.2 with (k, v) => Any_ind v end)
                    (go d)
                end) d)
  end.

End AnyInduction.

(** ** Pydantic models (lines 28-43) *)

(** [class Parameter(BaseModel)]. *)
Record ParameterModel := {
  param_name : string;
  param_type : string;               (* 'range', 'choice', 'fixed' *)
  param_bounds : option (list float);
  param_values : option (list Any);
  param_value : Any;                 (* Optional[Any]: absent is None *)
  param_log_scale : option bool
}.

Record ExperimentRequest := {
  req_name : string;
  req_parameters : list ParameterModel;
  req_objective_name : string;       (* defaults to "score" *)
  req_minimize : bool                (* defaults to False *)
}.

Record TrialCompletionRequest := {
  completion_score : float
}.

(** ** What the handlers hand to Ax *)

(** The dictionaries appended to [ax_parameters]; the "type" key is the
    constructor. *)
Inductive AxParameter : Type :=
| AxRange (name : string) (bounds : option (list float)) (log_scale : bool)
| AxChoice (name : string) (values : option (list Any))
| AxFixed (name : string) (value : Any).

Definition ax_name (p : AxParameter) : string :=
  match p with
  | AxRange n _ _ | AxChoice n _ | AxFixed n _ => n
  end.

Record ObjectiveProperties := { op_minimize : bool }.

(** A parameterization: parameter name to value, in insertion order. *)
Abbreviation TParameterization := (list (string * Any)).

(** A metric dictionary: metric name to value, in insertion order. *)
Abbreviation MetricDict := (list (string * float)).

(** The second component of [get_best_parameters]: means and
    covariances, or [None]. *)
Abbreviation TModelPredictArm :=
  (MetricDict * list (string * MetricDict))%type.

(** ** The Ax client, as the service uses it

    Every method may raise; the exception is carried as [str(e)], which
    is all the handlers keep of it.  The two methods that change the
    client in place return the client they leave behind, raised or not.
    [World] is the storage that checkpoint files live in, [Row] one
    record of the trials data frame. *)
Class Engine := {
  AxClient : Type;
  World : Type;
  Row : Type;
  (* AxClient() *)
  AxClient_new : string + AxClient;
  (* client.create_experiment(name=, parameters=, objectives=) *)
  ax_create_experiment :
    AxClient → string → list AxParameter →
    list (string * ObjectiveProperties) → string + AxClient;
  (* client.get_next_trial() *)
  ax_get_next_trial :
    AxClient → (string + TParameterization * Z) * AxClient;
  (* client.complete_trial(trial_index=, raw_data=) *)
  ax_complete_trial :
    AxClient → Z → MetricDict → (string + unit) * AxClient;
  (* client.get_best_parameters() *)
  ax_get_best_parameters :
    AxClient →
    string + option (TParameterization * option TModelPredictArm);
  (* client.get_trials_data_frame(), already as .to_dict('records') *)
  ax_get_trials_data_frame : AxClient → string + option (list Row);
  (* client.save_to_json_file(filepath=) *)
  ax_save_to_json_file : AxClient → string → World → (string + unit) * World;
  (* AxClient.load_from_json_file(filepath=) *)
  ax_load_from_json_file : string → World → string + AxClient;
  (* client.experiment.name *)
  ax_experiment_name : AxClient → string + string
}.

(** ** HTTP results *)

Record HTTPException := {
  status_code : Z;
  detail : string
}.

(** The exception of lines 141, 172, 202, 225 and 242. *)
Definition ExperimentNotFound : HTTPException :=
  {| status_code := 404; detail := "Experiment not found" |}.

(** [except Exception as e: raise HTTPException(status_code=500, detail=str(e))] *)
Definition internal_error (e : string) : HTTPException :=
  {| status_code := 500; detail := e |}.

Record CreateResponse := {
  created_experiment_id : string;
  created_status : string;
  created_parameters : nat
}.

Record NextTrialResponse := {
  next_parameters : TParameterization;
  next_trial_index : Z
}.

Record CompleteResponse := {
  completed_status : string;
  completed_trial_index : Z
}.

Record BestResponse := {
  best_parameters : TParameterization;
  best_score : float
}.

Record SaveResponse := {
  saved_status : string;
  saved_filepath : string
}.

Record LoadResponse := {
  loaded_status : string;
  loaded_experiment_id : string
}.

(** ** The handlers *)

Section Service.
Context `{E : Engine}.

(** The module-level dictionary [experiments] and the storage the
    checkpoints are written to. *)
Record State := {
  experiments : gmap string AxClient;
  storage : World
}.

Definition set_experiment (experiment_id : string) (client : AxClient)
    (st : State) : State :=
  {| experiments := <[experiment_id := client]> (experiments st);
     storage := storage st |}.

Definition Result (A : Type) : Type := ((HTTPException + A) * State)%type.

(** The body of the loop of lines 88-107: what one parameter appends. *)
Definition to_ax (param : ParameterModel) : list AxParameter :=
  if String.eqb (param_type param) "range" then
    [AxRange (param_name param) (param_bounds param)
             (default false (param_log_scale param))]
  else if String.eqb (param_type param) "choice" then
    [AxChoice (param_name param) (param_values param)]
  else if String.eqb (param_type param) "fixed" then
    [AxFixed (param_name param) (param_value param)]
  else [].

(** Lines 87-107. *)
Definition convert_parameters (parameters : list ParameterModel)
    : list AxParameter :=
  fold_left (λ ax_parameters param, (ax_parameters ++ to_ax param)%list)
            parameters [].

(** POST /create_experiment, lines 75-129. *)
Definition create_experiment (request : ExperimentRequest) (st : State)
    : Result CreateResponse :=
  match AxClient_new with
  | inl e => (inl (internal_error e), st)
  | inr client =>
    let ax_parameters := convert_parameters (req_parameters request) in
    match ax_create_experiment client (req_name request) ax_parameters
            [(req_objective_name request,
              {| op_minimize := req_minimize request |})] with
    | inl e => (inl (internal_error e), st)
    | inr client =>
      let experiment_id := req_name request in
      (inr {| created_experiment_id := experiment_id;
              created_status := "created";
              created_parameters := length ax_parameters |},
       set_experiment experiment_id client st)
    end
  end.

(** GET /get_next_trial/{experiment_id}, lines 132-155. *)
Definition get_next_trial (experiment_id : string) (st : State)
    : Result NextTrialResponse :=
  match experiments st !! experiment_id with
  | None => (inl ExperimentNotFound, st)
  | Some client =>
    match ax_get_next_trial client with
    | (inl e, client) =>
      (inl (internal_error e), set_experiment experiment_id client st)
    | (inr (parameters, trial_index), client) =>
      (inr {| next_parameters := parameters;
              next_trial_index := trial_index |},
       set_experiment experiment_id client st)
    end
  end.

(** POST /complete_trial/{experiment_id}/{trial_index}, lines 158-190. *)
Definition complete_trial (experiment_id : string) (trial_index : Z)
    (completion : TrialCompletionRequest) (st : State)
    : Result CompleteResponse :=
  match experiments st !! experiment_id with
  | None => (inl ExperimentNotFound, st)
  | Some client =>
    match ax_complete_trial client trial_index
            [("score", completion_score completion)] with
    | (inl e, client) =>
      (inl (internal_error e), set_experiment experiment_id client st)
    | (inr _, client) =>
      (inr {| completed_status := "completed";
              completed_trial_index := trial_index |},
       set_experiment experiment_id client st)
    end
  end.

(** GET /get_best/{experiment_id}, lines 193-219.  Unpacking [None],
    subscripting [None] and indexing an empty list raise inside the
    [try]. *)
Definition get_best (experiment_id : string) (st : State)
    : Result BestResponse :=
  match experiments st !! experiment_id with
  | None => (inl ExperimentNotFound, st)
  | Some client =>
    match ax_get_best_parameters client with
    | inl e => (inl (internal_error e), st)
    | inr None =>
      (inl (internal_error "cannot unpack non-iterable NoneType object"),
       st)
    | inr (Some (best_parameters, None)) =>
      (inl (internal_error "'NoneType' object is not subscriptable"), st)
    | inr (Some (best_parameters, Some (means, _))) =>
      match map snd means with
      | [] => (inl (internal_error "list index out of range"), st)
      | score :: _ =>
        (inr {| best_parameters := best_parameters;
                best_score := score |}, st)
      end
    end
  end.

(** GET /get_trials/{experiment_id}, lines 222-236. *)
Definition get_trials (experiment_id : string) (st : State)
    : Result (list Row) :=
  match experiments st !! experiment_id with
  | None => (inl ExperimentNotFound, st)
  | Some client =>
    match ax_get_trials_data_frame client with
    | inl e => (inl (internal_error e), st)
    | inr (Some trials) => (inr trials, st)
    | inr None => (inr [], st)
    end
  end.

(** POST /save_checkpoint/{experiment_id}, lines 239-254. *)
Definition save_checkpoint (experiment_id filepath : string) (st : State)
    : Result SaveResponse :=
  match experiments st !! experiment_id with
  | None => (inl ExperimentNotFound, st)
  | Some client =>
    match ax_save_to_json_file client filepath (storage st) with
    | (inl e, w) =>
      (inl (internal_error e),
       {| experiments := experiments st; storage := w |})
    | (inr _, w) =>
      (inr {| saved_status := "saved"; saved_filepath := filepath |},
       {| experiments := experiments st; storage := w |})
    end
  end.

(** POST /load_checkpoint, lines 257-271. *)
Definition load_checkpoint (filepath : string) (st : State)
    : Result LoadResponse :=
  match ax_load_from_json_file filepath (storage st) with
  | inl e => (inl (internal_error e), st)
  | inr client =>
    match ax_experiment_name client with
    | inl e => (inl (internal_error e), st)
    | inr experiment_id =>
      (inr {| loaded_status := "loaded";
              loaded_experiment_id := experiment_id |},
       set_experiment experiment_id client st)
    end
  end.

End Service.

(** ** A reference engine

    The experiment object behind [AxClient] (the parameter space, the
    trial ledger, the engine adapter and the checkpoint codec) is not
    part of this repository.  Where a property of the service is decided
    by that object, it is checked against the engine below, which
    follows the component contracts of the specification.  How the next
    point is chosen ([strategy]) and what the texts of the library's
    exceptions are ([str]) stay parameters. *)
Module Reference.

(** Modelled from the spec: the failure kinds of ParameterSpace.validate
    (section 4.1); the validator itself is inside the Ax library. *)
Inductive ValidationError :=
| DuplicateParameter
| InvalidBounds
| InvalidLogScale
| EmptyChoiceSet
| MissingFixedValue.

(** Modelled from the spec: the failure kinds that sections 4.2-4.5 give
    the engine adapter, the trial ledger and the checkpoint codec, all
    inside the Ax library. *)
Inductive EngineError :=
| Validation (kind : ValidationError)
| EngineExhausted
| EngineInternalError
| UnknownTrial
| AlreadyCompleted
| DuplicateTrialIndex
| NoObservationsYet
| CorruptCheckpoint
| UnsupportedVersion
| IOError.

(** Modelled from the spec: ParameterSpec of section 3 (Range, Choice,
    Fixed); the search-space classes are inside the Ax library. *)
Inductive ParameterSpec :=
| Range (name : string) (lower upper : float) (log_scale : bool)
| Choice (name : string) (values : list Any)
| Fixed (name : string) (value : Any).

(** Modelled from the spec: ExperimentSpec of section 3; the experiment
    class is inside the Ax library. *)
Record ExperimentSpec := {
  spec_name : string;
  spec_parameters : list ParameterSpec;
  spec_objective_name : string;
  spec_minimize : bool
}.

(** Modelled from the spec: the trial status of section 3; the trial
    class is inside the Ax library. *)
Inductive Status := Proposed | Completed | Failed.

(** Modelled from the spec: Trial of section 3 (index, parameter
    assignment, status, optional outcome); the trial class is inside
    the Ax library. *)
Record Trial := {
  trial_index : Z;
  trial_parameters : TParameterization;
  trial_status : Status;
  trial_outcome : option float
}.

(** Modelled from the spec: Experiment of section 3, one spec, the
    ordered trial ledger and the state of the engine adapter, which
    here is the next index to issue; the client class is inside the Ax
    library. *)
Record Experiment := {
  spec : ExperimentSpec;
  ledger : list Trial;
  next_index : Z
}.

(** Modelled from the spec: the checkpoint payload of section 6, a
    versioned envelope of version tag, spec, ordered trial list and
    opaque engine-snapshot bytes; the JSON codec is inside the Ax
    library. *)
Record Envelope := {
  env_version : nat;
  env_spec : ExperimentSpec;
  env_trials : list Trial;
  env_snapshot : string
}.

(** Modelled from the spec: the storage that checkpoints are written to
    and read from (sections 4.5 and 6): the bytes of each file, and the
    destinations that cannot be written, on which SaveCheckpoint is an
    IOError (sections 6 and 7d); the file system is outside the
    repository. *)
Record FileSystem := {
  files : gmap string string;
  unwritable : gset string
}.

(** Modelled from the spec: the format version that save writes and
    load accepts (section 6, versioned envelope); the codec is inside
    the Ax library. *)
Definition FORMAT_VERSION : nat := 1.

(** Modelled from the spec: what the opaque optimization strategy
    answers to suggest (section 4.2): a point, EngineExhausted or
    EngineInternalError; the generation strategy is inside the Ax
    library. *)
Inductive Proposal :=
| Point (parameters : TParameterization)
| Exhausted
| InternalFailure.

(** *** ParameterSpace *)

(** Modelled from the spec: the per-parameter checks of
    ParameterSpace.validate (section 4.1): Range needs two numeric
    bounds with lower < upper and, on a log scale, lower > 0; Choice
    needs a non-empty value set; Fixed needs a value.  The validator is
    inside the Ax library. *)
Definition validate_parameter (p : AxParameter)
    : ValidationError + ParameterSpec :=
  match p with
  | AxRange name (Some [lower; upper]) log_scale =>
    if negb (float_lt lower upper) then inl InvalidBounds
    else if log_scale && negb (float_lt (Finite 0) lower)
    then inl InvalidLogScale
    else inr (Range name lower upper log_scale)
  | AxRange _ _ _ => inl InvalidBounds
  | AxChoice name (Some (v :: values)) => inr (Choice name (v :: values))
  | AxChoice _ _ => inl EmptyChoiceSet
  | AxFixed name PyNone => inl MissingFixedValue
  | AxFixed name value => inr (Fixed name value)
  end.

(** Modelled from the spec: the per-parameter checks of
    ParameterSpace.validate (section 4.1) over the whole list; the
    validator is inside the Ax library. *)
Fixpoint validate_each (ps : list AxParameter)
    : ValidationError + list ParameterSpec :=
  match ps with
  | [] => inr []
  | p :: ps =>
    match validate_parameter p with
    | inl k => inl k
    | inr s =>
      match validate_each ps with
      | inl k => inl k
      | inr ss => inr (s :: ss)
      end
    end
  end.

(** Modelled from the spec: ParameterSpace.validate (section 4.1).  A
    list with several defects is rejected with one of them; the
    specification gives no order among the checks, and nothing below
    depends on which one is reported.  The validator is inside the Ax
    library. *)
Definition validate (ps : list AxParameter)
    : ValidationError + list ParameterSpec :=
  if bool_decide (NoDup (map ax_name ps)) then validate_each ps
  else inl DuplicateParameter.

(** *** TrialLedger *)

(** Modelled from the spec: the ledger is keyed by trial index (section
    4.3), this is its lookup; the ledger is inside the Ax library. *)
Definition find_trial (index : Z) (l : list Trial) : option Trial :=
  List.find (λ t, Z.eqb (trial_index t) index) l.

(** Modelled from the spec: TrialLedger.record_proposed (section 4.3),
    appends a Proposed trial, DuplicateTrialIndex if the index is
    present; the ledger is inside the Ax library. *)
Definition record_proposed (index : Z) (parameters : TParameterization)
    (l : list Trial) : EngineError + list Trial :=
  match find_trial index l with
  | Some _ => inl DuplicateTrialIndex
  | None =>
    inr (l ++ [{| trial_index := index; trial_parameters := parameters;
                  trial_status := Proposed; trial_outcome := None |}])%list
  end.

(** Modelled from the spec: the transition of a trial to Completed,
    attaching the outcome (section 4.3); the trial class is inside the Ax
    library. *)
Definition complete (score : float) (t : Trial) : Trial :=
  {| trial_index := trial_index t;
     trial_parameters := trial_parameters t;
     trial_status := Completed;
     trial_outcome := Some score |}.

(** Modelled from the spec: a trial is mutated in place, the ledger
    keeps its order and length (sections 3 and 4.3); the ledger is inside
    the Ax library. *)
Fixpoint update_trial (index : Z) (f : Trial → Trial) (l : list Trial)
    : list Trial :=
  match l with
  | [] => []
  | t :: l =>
    if Z.eqb (trial_index t) index then f t :: l
    else t :: update_trial index f l
  end.

(** Modelled from the spec: which trial a completion may touch
    (sections 4.2 and 4.3): UnknownTrial if the index is absent,
    AlreadyCompleted if the status is already terminal; the ledger is
    inside the Ax library. *)
Definition completable (index : Z) (l : list Trial)
    : EngineError + Trial :=
  match find_trial index l with
  | None => inl UnknownTrial
  | Some t =>
    match trial_status t with
    | Proposed => inr t
    | Completed | Failed => inl AlreadyCompleted
    end
  end.

(** Modelled from the spec: TrialLedger.record_completed (section 4.3),
    moves a Proposed trial to Completed with its outcome; the ledger is
    inside the Ax library. *)
Definition record_completed (index : Z) (score : float) (l : list Trial)
    : EngineError + list Trial :=
  match completable index l with
  | inl err => inl err
  | inr _ => inr (update_trial index (complete score) l)
  end.

(** The order of [TrialLedger.all]. *)
Definition index_le (a b : Trial) : Prop :=
  (trial_index a ≤ trial_index b)%Z.

#[global] Instance index_le_dec : RelDecision index_le :=
  λ a b, decide (trial_index a ≤ trial_index b)%Z.

(** Modelled from the spec: TrialLedger.all (section 4.3), the trials
    by index, ascending; the ledger is inside the Ax library. *)
Definition all (l : list Trial) : list Trial := merge_sort index_le l.

(** *** Engine adapter *)

(** Modelled from the spec: the observations best ranges over, the
    Completed trials with their outcomes, in ledger order (sections 3
    and 4.2); the model is inside the Ax library. *)
Definition observations (l : list Trial) : list (Trial * float) :=
  omap (λ t, match trial_status t, trial_outcome t with
             | Completed, Some score => Some (t, score)
             | _, _ => None
             end) l.

(** Modelled from the spec: the configured direction (section 4.2),
    [better minimize a b] when score [a] beats score [b]; the model is
    inside the Ax library. *)
Definition better (minimize : bool) (a b : float) : bool :=
  if minimize then float_lt a b else float_lt b a.

(** Modelled from the spec: the best of two observations under the
    direction, the earlier one on a tie (section 4.2); the model is inside
    the Ax library. *)
Definition pick (minimize : bool) (cur new : Trial * float)
    : Trial * float :=
  if better minimize (snd new) (snd cur) then new else cur.

(** Modelled from the spec: Engine Adapter best (section 4.2), the
    best-known point under the configured direction, NoObservationsYet
    if no trial has been completed; the model is inside the Ax
    library. *)
Definition best (e : Experiment) : EngineError + Trial * float :=
  match observations (ledger e) with
  | [] => inl NoObservationsYet
  | o :: os => inr (fold_left (pick (spec_minimize (spec e))) os o)
  end.

(** Modelled from the spec: the Trial invariant of section 3, read on a
    ledger: the outcome is present iff the status is Completed; the trial
    class is inside the Ax library. *)
Definition ledger_wf (l : list Trial) : Prop :=
  ∀ tr, tr ∈ l → trial_status tr = Completed ↔ is_Some (trial_outcome tr).

(** Modelled from the spec: the invariants of section 3 on an
    experiment: outcomes go with Completed trials, trial indices are
    unique within the experiment and were issued by its engine; the
    client class is inside the Ax library. *)
Definition experiment_wf (e : Experiment) : Prop :=
  ledger_wf (ledger e)
  ∧ NoDup (map trial_index (ledger e))
  ∧ Forall (λ tr, (trial_index tr < next_index e)%Z) (ledger e).

(** *** CheckpointCodec: the bytes of a checkpoint *)

(** A reader takes the bytes and returns what it read and the bytes
    that follow. *)
Definition Decoder (A : Type) : Type := string → option (A * string).

(** [reads write read x]: the bytes that [write] gives for [x] are read
    back as [x], and what follows them is left. *)
Definition reads {A} (write : A → string) (read : Decoder A) (x : A)
    : Prop :=
  ∀ rest, read (write x ++ rest) = Some (x, rest).

(** What was read, under the constructor [f]. *)
Definition tagged {A B} (f : A → B) (r : option (A * string))
    : option (B * string) :=
  prod_map f id <$> r.

(** One reader after another, on the bytes that the first one left. *)
Definition then_read {A B} (r : option (A * string))
    (k : A → Decoder B) : option (B * string) :=
  match r with
  | Some (x, rest) => k x rest
  | None => None
  end.

(** Modelled from the spec: the bytes of a positive number in a
    checkpoint, its binary digits from the lowest, closed by a dot; the
    file format is inside the Ax library. *)
Fixpoint write_positive (p : positive) : string :=
  match p with
  | xH => "."
  | xO p => String "0"%char (write_positive p)
  | xI p => String "1"%char (write_positive p)
  end.

(** Modelled from the spec: reads what [write_positive] wrote; the file
    format is inside the Ax library. *)
Fixpoint read_positive (s : string) : option (positive * string) :=
  match s with
  | String "."%char s => Some (xH, s)
  | String "0"%char s => tagged xO (read_positive s)
  | String "1"%char s => tagged xI (read_positive s)
  | _ => None
  end.

(** Modelled from the spec: the bytes of an integer in a checkpoint,
    sign and magnitude; the file format is inside the Ax library. *)
Definition write_Z (z : Z) : string :=
  match z with
  | Z0 => "z"
  | Zpos p => String "+"%char (write_positive p)
  | Zneg p => String "-"%char (write_positive p)
  end.

(** Modelled from the spec: reads what [write_Z] wrote; the file format
    is inside the Ax library. *)
Definition read_Z : Decoder Z := λ s,
  match s with
  | String "z"%char s => Some (0%Z, s)
  | String "+"%char s => tagged Zpos (read_positive s)
  | String "-"%char s => tagged Zneg (read_positive s)
  | _ => None
  end.

(** Modelled from the spec: the bytes of a length or a version tag in a
    checkpoint, as those of the integer; the file format is inside the Ax
    library. *)
Definition write_nat (n : nat) : string := write_Z (Z.of_nat n).

(** Modelled from the spec: reads what [write_nat] wrote, a negative
    number being none; the file format is inside the Ax library. *)
Definition read_nat : Decoder nat := λ s,
  then_read (read_Z s) (λ z rest,
    if (0 <=? z)%Z then Some (Z.to_nat z, rest) else None).

(** Modelled from the spec: the byte of a flag in a checkpoint; the
    file format is inside the Ax library. *)
Definition write_bool (b : bool) : string := if b then "T" else "F".

(** Modelled from the spec: reads what [write_bool] wrote; the file
    format is inside the Ax library. *)
Definition read_bool : Decoder bool := λ s,
  match s with
  | String "T"%char s => Some (true, s)
  | String "F"%char s => Some (false, s)
  | _ => None
  end.

(** The next [n] bytes. *)
Fixpoint read_bytes (n : nat) (s : string) : option (string * string) :=
  match n with
  | 0 => Some ("", s)
  | S n =>
    match s with
    | String c s => tagged (String c) (read_bytes n s)
    | EmptyString => None
    end
  end.

(** Modelled from the spec: the bytes of a string in a checkpoint, its
    length and then its characters; the file format is inside the Ax
    library. *)
Definition write_string (s : string) : string :=
  write_nat (String.length s) ++ s.

(** Modelled from the spec: reads what [write_string] wrote; the file
    format is inside the Ax library. *)
Definition read_string : Decoder string := λ s,
  then_read (read_nat s) read_bytes.

(** Modelled from the spec: the bytes of a number in a checkpoint, a
    fraction, an infinity or NaN; the file format is inside the Ax
    library. *)
Definition write_float (x : float) : string :=
  match x with
  | Finite q => String "Q"%char (write_Z (Qnum q) ++ write_positive (Qden q))
  | Infinity negative => String "I"%char (write_bool negative)
  | NaN => "N"
  end.

(** Modelled from the spec: reads what [write_float] wrote; the file
    format is inside the Ax library. *)
Definition read_float : Decoder float := λ s,
  match s with
  | String "Q"%char s =>
    then_read (read_Z s) (λ n rest,
      tagged (λ d, Finite (n # d)) (read_positive rest))
  | String "I"%char s => tagged Infinity (read_bool s)
  | String "N"%char s => Some (NaN, s)
  | _ => None
  end.

(** Modelled from the spec: the bytes of an optional field in a
    checkpoint (the outcome of a trial, section 3); the file format is
    inside the Ax library. *)
Definition write_option {A} (write : A → string) (o : option A) : string :=
  match o with
  | Some x => String "S"%char (write x)
  | None => "-"
  end.

(** Modelled from the spec: reads what [write_option] wrote; the file
    format is inside the Ax library. *)
Definition read_option {A} (read : Decoder A) : Decoder (option A) := λ s,
  match s with
  | String "S"%char s => tagged Some (read s)
  | String "-"%char s => Some (None, s)
  | _ => None
  end.

(** The items of a sequence, one after the other. *)
Definition write_items {A} (write : A → string) (l : list A) : string :=
  foldr (λ x acc, write x ++ acc) "" l.

(** Modelled from the spec: the bytes of a sequence in a checkpoint,
    its length and then its items in order; the file format is inside
    the Ax library. *)
Definition write_list {A} (write : A → string) (l : list A) : string :=
  write_nat (length l) ++ write_items write l.

(** The next [n] items. *)
Fixpoint read_items {A} (read : Decoder A) (n : nat) (s : string)
    : option (list A * string) :=
  match n with
  | 0 => Some ([], s)
  | S n =>
    then_read (read s) (λ x rest,
      tagged (cons x) (read_items read n rest))
  end.

(** Modelled from the spec: reads what [write_list] wrote; the file
    format is inside the Ax library. *)
Definition read_list {A} (read : Decoder A) : Decoder (list A) := λ s,
  then_read (read_nat s) (read_items read).

(** Modelled from the spec: the bytes of a key and its value in a
    checkpoint (a parameter assignment, section 3); the file format is
    inside the Ax library. *)
Definition write_pair {A B} (wa : A → string) (wb : B → string)
    (p : A * B) : string :=
  wa p.1 ++ wb p.2.

(** Modelled from the spec: reads what [write_pair] wrote; the file
    format is inside the Ax library. *)
Definition read_pair {A B} (ra : Decoder A) (rb : Decoder B)
    : Decoder (A * B) := λ s,
  then_read (ra s) (λ a rest, tagged (pair a) (rb rest)).

(** How deeply lists and dictionaries are nested in a value. *)
Fixpoint depth (v : Any) : nat :=
  match v with
  | PyList l => S (foldr (λ x, Nat.max (depth x)) 0%nat l)
  | PyDict d => S (foldr (λ kv, Nat.max (depth kv.2)) 0%nat d)
  | _ => 0%nat
  end.

(** Modelled from the spec: the bytes of a parameter value in a
    checkpoint, a tag and then the value (section 9: a tagged value
    variant); the file format is inside the Ax library. *)
Fixpoint write_any (v : Any) : string :=
  match v with
  | PyNone => "n"
  | PyBool b => String "b"%char (write_bool b)
  | PyInt z => String "i"%char (write_Z z)
  | PyFloat x => String "f"%char (write_float x)
  | PyStr s => String "s"%char (write_string s)
  | PyList l => String "l"%char (write_list write_any l)
  | PyDict d =>
    String "d"%char
      (write_list (λ kv, write_string kv.1 ++ write_any kv.2) d)
  end.

(** Modelled from the spec: reads what [write_any] wrote; [fuel] bounds
    the nesting that the reader follows.  The file format is inside the
    Ax library. *)
Fixpoint read_any (fuel : nat) (s : string) : option (Any * string) :=
  match fuel with
  | 0 => None
  | S fuel =>
    match s with
    | String "n"%char s => Some (PyNone, s)
    | String "b"%char s => tagged PyBool (read_bool s)
    | String "i"%char s => tagged PyInt (read_Z s)
    | String "f"%char s => tagged PyFloat (read_float s)
    | String "s"%char s => tagged PyStr (read_string s)
    | String "l"%char s => tagged PyList (read_list (read_any fuel) s)
    | String "d"%char s =>
      tagged PyDict (read_list (read_pair read_string (read_any fuel)) s)
    | _ => None
    end
  end.

(** Modelled from the spec: a parameter value in a checkpoint is
    written with its depth in front, which is the fuel of its reader
    (section 4.5: a self-describing payload); the file format is inside the
    Ax library. *)
Definition write_value (v : Any) : string :=
  write_nat (depth v) ++ write_any v.

(** Modelled from the spec: reads what [write_value] wrote; the file
    format is inside the Ax library. *)
Definition read_value : Decoder Any := λ s,
  then_read (read_nat s) (λ d, read_any (S d)).

(** Modelled from the spec: the bytes of a ParameterSpec in a
    checkpoint, the variant and then its fields (section 3); the file
    format is inside the Ax library. *)
Definition write_parameter (p : ParameterSpec) : string :=
  match p with
  | Range name lower upper log_scale =>
    String "R"%char (write_string name ++ write_float lower
                     ++ write_float upper ++ write_bool log_scale)
  | Choice name values =>
    String "C"%char (write_string name ++ write_list write_value values)
  | Fixed name value =>
    String "X"%char (write_string name ++ write_value value)
  end.

(** Modelled from the spec: reads what [write_parameter] wrote; the file
    format is inside the Ax library. *)
Definition read_parameter : Decoder ParameterSpec := λ s,
  match s with
  | String "R"%char s =>
    then_read (read_string s) (λ name rest,
    then_read (read_float rest) (λ lower rest,
    then_read (read_float rest) (λ upper rest,
      tagged (Range name lower upper) (read_bool rest))))
  | String "C"%char s =>
    then_read (read_string s) (λ name rest,
      tagged (Choice name) (read_list read_value rest))
  | String "X"%char s =>
    then_read (read_string s) (λ name rest,
      tagged (Fixed name) (read_value rest))
  | _ => None
  end.

(** Modelled from the spec: the bytes of an ExperimentSpec in a
    checkpoint, its four fields in the order of section 3; the file
    format is inside the Ax library. *)
Definition write_spec (s : ExperimentSpec) : string :=
  write_string (spec_name s)
  ++ write_list write_parameter (spec_parameters s)
  ++ write_string (spec_objective_name s)
  ++ write_bool (spec_minimize s).

(** Modelled from the spec: reads what [write_spec] wrote; the file
    format is inside the Ax library. *)
Definition read_spec : Decoder ExperimentSpec := λ s,
  then_read (read_string s) (λ name rest,
  then_read (read_list read_parameter rest) (λ parameters rest,
  then_read (read_string rest) (λ objective_name rest,
    tagged (λ minimize,
              {| spec_name := name; spec_parameters := parameters;
                 spec_objective_name := objective_name;
                 spec_minimize := minimize |})
           (read_bool rest)))).

(** Modelled from the spec: the byte of a trial status in a checkpoint
    (section 3); the file format is inside the Ax library. *)
Definition write_status (s : Status) : string :=
  match s with
  | Proposed => "P"
  | Completed => "C"
  | Failed => "F"
  end.

(** Modelled from the spec: reads what [write_status] wrote; the file
    format is inside the Ax library. *)
Definition read_status : Decoder Status := λ s,
  match s with
  | String "P"%char s => Some (Proposed, s)
  | String "C"%char s => Some (Completed, s)
  | String "F"%char s => Some (Failed, s)
  | _ => None
  end.

(** Modelled from the spec: the bytes of a Trial in a checkpoint, its
    four fields in the order of section 3; the file format is inside the
    Ax library. *)
Definition write_trial (t : Trial) : string :=
  write_Z (trial_index t)
  ++ write_list (write_pair write_string write_value) (trial_parameters t)
  ++ write_status (trial_status t)
  ++ write_option write_float (trial_outcome t).

(** Modelled from the spec: reads what [write_trial] wrote; the file
    format is inside the Ax library. *)
Definition read_trial : Decoder Trial := λ s,
  then_read (read_Z s) (λ index rest,
  then_read (read_list (read_pair read_string read_value) rest)
    (λ parameters rest,
  then_read (read_status rest) (λ status rest,
    tagged (λ outcome,
              {| trial_index := index; trial_parameters := parameters;
                 trial_status := status; trial_outcome := outcome |})
           (read_option read_float rest)))).

(** Modelled from the spec: the bytes of the payload (section 6): the
    version tag first, then the spec, the ordered trial list and the
    engine-snapshot bytes; the file format is inside the Ax library. *)
Definition write_envelope (env : Envelope) : string :=
  write_nat (env_version env)
  ++ write_spec (env_spec env)
  ++ write_list write_trial (env_trials env)
  ++ write_string (env_snapshot env).

(** Modelled from the spec: reading a payload (sections 4.5 and 6): an
    unknown version is rejected before anything else is read
    (UnsupportedVersion), bytes that are no payload or have something
    after it are a structural mismatch (CorruptCheckpoint); the file
    format is inside the Ax library. *)
Definition read_envelope (bytes : string) : EngineError + Envelope :=
  match read_nat bytes with
  | None => inl CorruptCheckpoint
  | Some (version, rest) =>
    if Nat.eqb version FORMAT_VERSION then
      match
        then_read (read_spec rest) (λ s rest,
        then_read (read_list read_trial rest) (λ trials rest,
          tagged (λ snapshot,
                    {| env_version := version; env_spec := s;
                       env_trials := trials; env_snapshot := snapshot |})
                 (read_string rest)))
      with
      | Some (env, EmptyString) => inr env
      | _ => inl CorruptCheckpoint
      end
    else inl UnsupportedVersion
  end.

(** Modelled from the spec: Engine Adapter snapshot (section 4.2), the
    state of the adapter as bytes; here the state is the next index to
    issue.  The adapter is inside the Ax library. *)
Definition snapshot (e : Experiment) : string := write_Z (next_index e).

(** Modelled from the spec: Engine Adapter restore (section 4.2), the
    state of the adapter from the bytes of a snapshot; the adapter is
    inside the Ax library. *)
Definition restore (bytes : string) : option Z :=
  match read_Z bytes with
  | Some (next, EmptyString) => Some next
  | _ => None
  end.

(** Modelled from the spec: CheckpointCodec.save (section 4.5), one
    payload of spec, full ledger and engine snapshot; the codec is
    inside the Ax library. *)
Definition save (e : Experiment) : string :=
  write_envelope {| env_version := FORMAT_VERSION; env_spec := spec e;
                    env_trials := ledger e; env_snapshot := snapshot e |}.

(** Modelled from the spec: CheckpointCodec.load (section 4.5), which
    reads the payload and restores the adapter from its snapshot:
    CorruptCheckpoint on a structural mismatch, UnsupportedVersion on
    an unknown version; the codec is inside the Ax library. *)
Definition load (bytes : string) : EngineError + Experiment :=
  match read_envelope bytes with
  | inl err => inl err
  | inr env =>
    match restore (env_snapshot env) with
    | None => inl CorruptCheckpoint
    | Some next =>
      inr {| spec := env_spec env; ledger := env_trials env;
             next_index := next |}
    end
  end.

Section Engine.
(** The opaque strategy: the spec and the history so far to a
    proposal. *)
Variable strategy : ExperimentSpec → list Trial → Proposal.

(** [str(e)] of the exception that the library raises for a failure:
    the text is the library's and is nowhere in the repository, so it
    stays a parameter. *)
Variable str : EngineError → string.

(** An engine failure as the service sees it: an exception whose
    [str] it keeps. *)
Definition raise {A} (e : EngineError) : string + A := inl (str e).

(** Modelled from the spec: creation binds a fresh client to a
    validated spec with one objective and an empty ledger (sections 3
    and 4.1); on a client that already owns an experiment it fails (the
    spec is immutable after creation).  The client is inside the Ax
    library. *)
Definition create (client : option Experiment) (name : string)
    (parameters : list AxParameter)
    (objectives : list (string * ObjectiveProperties))
    : string + option Experiment :=
  match client, objectives with
  | None, [(objective_name, properties)] =>
    match validate parameters with
    | inl k => raise (Validation k)
    | inr space =>
      inr (Some {| spec := {| spec_name := name;
                              spec_parameters := space;
                              spec_objective_name := objective_name;
                              spec_minimize := op_minimize properties |};
                   ledger := [];
                   next_index := 0 |})
    end
  | _, _ => raise EngineInternalError
  end.

(** Modelled from the spec: Engine Adapter suggest (section 4.2)
    followed by TrialLedger.record_proposed; a failure records
    nothing (section 7).  The client is inside the Ax library. *)
Definition suggest (client : option Experiment)
    : (string + TParameterization * Z) * option Experiment :=
  match client with
  | None => (raise EngineInternalError, client)
  | Some e =>
    match strategy (spec e) (ledger e) with
    | Exhausted => (raise EngineExhausted, client)
    | InternalFailure => (raise EngineInternalError, client)
    | Point parameters =>
      match record_proposed (next_index e) parameters (ledger e) with
      | inl err => (raise err, client)
      | inr l =>
        (inr (parameters, next_index e),
         Some {| spec := spec e; ledger := l;
                 next_index := next_index e + 1 |})
      end
    end
  end.

(** The value of key [k] in a Python dict, [d.get(k)]. *)
Definition dict_get {A} (k : string) (d : list (string * A))
    : option A :=
  snd <$> List.find (λ kv, String.eqb (fst kv) k) d.

(** Modelled from the spec: Engine Adapter observe (section 4.2) on
    top of TrialLedger.record_completed: the index is checked first,
    then the outcome, which maps the objective name to a number, is
    read; one without the objective cannot be recorded.  The client is
    inside the Ax library. *)
Definition observe (client : option Experiment) (index : Z)
    (outcome : MetricDict) : (string + unit) * option Experiment :=
  match client with
  | None => (raise EngineInternalError, client)
  | Some e =>
    match completable index (ledger e) with
    | inl err => (raise err, client)
    | inr _ =>
      match dict_get (spec_objective_name (spec e)) outcome with
      | None => (raise EngineInternalError, client)
      | Some score =>
        match record_completed index score (ledger e) with
        | inl err => (raise err, client)
        | inr l =>
          (inr tt, Some {| spec := spec e; ledger := l;
                           next_index := next_index e |})
        end
      end
    end
  end.

(** Modelled from the spec: Engine Adapter best (section 4.2) in the
    shape [get_best_parameters] returns it, the parameters and the
    objective's value; the client is inside the Ax library. *)
Definition best_parameters_of (client : option Experiment)
    : string + option (TParameterization * option TModelPredictArm) :=
  match client with
  | None => raise EngineInternalError
  | Some e =>
    match best e with
    | inl err => raise err
    | inr (t, score) =>
      inr (Some (trial_parameters t,
                 Some ([(spec_objective_name (spec e), score)], [])))
    end
  end.

(** Modelled from the spec: the trial history query of section 4.3;
    the client is inside the Ax library. *)
Definition trials_of (client : option Experiment)
    : string + option (list Trial) :=
  match client with
  | None => raise EngineInternalError
  | Some e => inr (Some (all (ledger e)))
  end.

(** Modelled from the spec: SaveCheckpoint writes the payload to the
    destination, IOError if the destination cannot be written
    (sections 6 and 7d); the file system is outside the repository. *)
Definition save_to (client : option Experiment) (filepath : string)
    (w : FileSystem) : (string + unit) * FileSystem :=
  match client with
  | None => (raise EngineInternalError, w)
  | Some e =>
    if decide (filepath ∈ unwritable w) then (raise IOError, w)
    else (inr tt, {| files := <[filepath := save e]> (files w);
                     unwritable := unwritable w |})
  end.

(** Modelled from the spec: LoadCheckpoint reads the source, IOError
    if there is none (section 6); the file system is outside the
    repository. *)
Definition load_from (filepath : string) (w : FileSystem)
    : string + option Experiment :=
  match files w !! filepath with
  | None => raise IOError
  | Some bytes =>
    match load bytes with
    | inl err => raise err
    | inr e => inr (Some e)
    end
  end.

(** Modelled from the spec: the experiment identifier is the name of
    its spec (section 3); the client is inside the Ax library. *)
Definition name_of (client : option Experiment) : string + string :=
  match client with
  | None => raise EngineInternalError
  | Some e => inr (spec_name (spec e))
  end.

(** The reference engine behind the interface of the service. *)
Definition engine : Engine := {|
  AxClient := option Experiment;
  World := FileSystem;
  Row := Trial;
  AxClient_new := inr None;
  ax_create_experiment := create;
  ax_get_next_trial := suggest;
  ax_complete_trial := observe;
  ax_get_best_parameters := best_parameters_of;
  ax_get_trials_data_frame := trials_of;
  ax_save_to_json_file := save_to;
  ax_load_from_json_file := load_from;
  ax_experiment_name := name_of
|}.

End Engine.

End Reference.

(** ** Sequences of requests *)

Inductive Request :=
| CreateExperiment (request : ExperimentRequest)
| GetNextTrial (experiment_id : string)
| CompleteTrial (experiment_id : string) (trial_index : Z)
                (completion : TrialCompletionRequest)
| GetBest (experiment_id : string)
| GetTrials (experiment_id : string)
| SaveCheckpoint (experiment_id filepath : string)
| LoadCheckpoint (filepath : string).

Section Traces.
Context `{E : Engine}.

Inductive Response :=
| CreateOk (r : CreateResponse)
| NextTrialOk (r : NextTrialResponse)
| CompleteOk (r : CompleteResponse)
| BestOk (r : BestResponse)
| TrialsOk (trials : list Row)
| SaveOk (r : SaveResponse)
| LoadOk (r : LoadResponse).

Definition answer {A} (wrap : A → Response) (r : Result A)
    : Result Response :=
  (match r.1 with inl err => inl err | inr a => inr (wrap a) end, r.2).

(** The routing table of the application. *)
Definition handle (rq : Request) (st : State) : Result Response :=
  match rq with
  | CreateExperiment request => answer CreateOk (create_experiment request st)
  | GetNextTrial experiment_id =>
    answer NextTrialOk (get_next_trial experiment_id st)
  | CompleteTrial experiment_id trial_index completion =>
    answer CompleteOk (complete_trial experiment_id trial_index completion st)
  | GetBest experiment_id => answer BestOk (get_best experiment_id st)
  | GetTrials experiment_id => answer TrialsOk (get_trials experiment_id st)
  | SaveCheckpoint experiment_id filepath =>
    answer SaveOk (save_checkpoint experiment_id filepath st)
  | LoadCheckpoint filepath => answer LoadOk (load_checkpoint filepath st)
  end.

(** Requests are served one at a time (no handler awaits): the trace
    pairs each request with its answer. *)
Fixpoint run (rqs : list Request) (st : State)
    : list (Request * (HTTPException + Response)) * State :=
  match rqs with
  | [] => ([], st)
  | rq :: rqs =>
    let r := handle rq st in
    let rest := run rqs r.2 in
    ((rq, r.1) :: rest.1, rest.2)
  end.

(** The trial indices that successful GetNextTrial calls on
    [experiment_id] returned, in order. *)
Definition issued (experiment_id : string)
    (trace : list (Request * (HTTPException + Response))) : list Z :=
  omap (λ ev, match ev with
              | (GetNextTrial i, inr (NextTrialOk r)) =>
                if String.eqb i experiment_id
                then Some (next_trial_index r) else None
              | _ => None
              end) trace.

(** The answered requests that put another client under
    [experiment_id]: a successful creation with that name, a successful
    load of a checkpoint with that name. *)
Definition replaces (experiment_id : string)
    (ev : Request * (HTTPException + Response)) : bool :=
  match ev with
  | (CreateExperiment request, inr _) =>
    String.eqb (req_name request) experiment_id
  | (LoadCheckpoint _, inr (LoadOk r)) =>
    String.eqb (loaded_experiment_id r) experiment_id
  | _ => false
  end.

End Traces.

(** The index that the reference experiment under [experiment_id] will
    issue next, if there is one. *)
Definition counter {strategy str}
    (st : @State (Reference.engine strategy str)) (experiment_id : string)
    : option Z :=
  experiments st !! experiment_id
  ≫= λ client : @AxClient (Reference.engine strategy str),
       Reference.next_index <$> (client : option Reference.Experiment).

(** Every experiment of the registry and every checkpoint of the storage
    is well formed. *)
Definition state_wf {strategy str}
    (st : @State (Reference.engine strategy str)) : Prop :=
  (∀ experiment_id e,
      experiments st !! experiment_id = Some (Some e) →
      Reference.experiment_wf e)
  ∧ (∀ filepath bytes e,
        Reference.files (storage st) !! filepath = Some bytes →
        Reference.load bytes = inr e →
        Reference.experiment_wf e).

(** ** Malformed parameter lists *)

(** [defect k p]: the forwarded parameter [p] has the defect that
    validation kind [k] names. *)
Definition defect (k : Reference.ValidationError) (p : AxParameter) : Prop :=
  match k, p with
  | Reference.InvalidBounds, AxRange _ bounds _ =>
    ∀ lower upper, bounds = Some [lower; upper] → float_lt lower upper = false
  | Reference.InvalidLogScale, AxRange _ (Some [lower; upper]) true =>
    float_lt (Finite 0) lower = false
  | Reference.EmptyChoiceSet, AxChoice _ values => default [] values = []
  | Reference.MissingFixedValue, AxFixed _ PyNone => True
  | _, _ => False
  end.

(** [exhibits k ps]: the forwarded parameters [ps] have a defect of kind
    [k]: a repeated name, or a parameter with that defect. *)
Definition exhibits (k : Reference.ValidationError) (ps : list AxParameter)
    : Prop :=
  match k with
  | Reference.DuplicateParameter => ¬ NoDup (map ax_name ps)
  | _ => ∃ p, p ∈ ps ∧ defect k p
  end.

Definition malformed (ps : list AxParameter) : Prop := ∃ k, exhibits k ps.

(** ** A small instance *)

Module Demo.
Import Reference.

(** A strategy that always proposes the first point of the space. *)
Definition first_value (p : ParameterSpec) : string * Any :=
  match p with
  | Range name lower _ _ => (name, PyFloat lower)
  | Choice name values => (name, default PyNone (head values))
  | Fixed name value => (name, value)
  end.

Definition strategy (s : ExperimentSpec) (history : list Trial)
    : Proposal :=
  Point (map first_value (spec_parameters s)).

(** The texts of the exceptions, for the instance: the name of the
    failure kind. *)
Definition message (e : EngineError) : string :=
  match e with
  | Validation DuplicateParameter => "DuplicateParameter"
  | Validation InvalidBounds => "InvalidBounds"
  | Validation InvalidLogScale => "InvalidLogScale"
  | Validation EmptyChoiceSet => "EmptyChoiceSet"
  | Validation MissingFixedValue => "MissingFixedValue"
  | EngineExhausted => "EngineExhausted"
  | EngineInternalError => "EngineInternalError"
  | UnknownTrial => "UnknownTrial"
  | AlreadyCompleted => "AlreadyCompleted"
  | DuplicateTrialIndex => "DuplicateTrialIndex"
  | NoObservationsYet => "NoObservationsYet"
  | CorruptCheckpoint => "CorruptCheckpoint"
  | UnsupportedVersion => "UnsupportedVersion"
  | IOError => "IOError"
  end.

Abbreviation engine := (Reference.engine strategy message).

(** The number [z] as a float. *)
Definition number (z : Z) : float := Finite (z # 1).

Definition x : ParameterModel :=
  {| param_name := "x"; param_type := "range";
     param_bounds := Some [number 0; number 10];
     param_values := None; param_value := PyNone;
     param_log_scale := Some false |}.

(** A second parameter called "x", of a type the service does not
    know. *)
Definition x_int : ParameterModel :=
  {| param_name := "x"; param_type := "integer";
     param_bounds := Some [number 0; number 10];
     param_values := None; param_value := PyNone;
     param_log_scale := None |}.

(** A range whose bounds are the wrong way round. *)
Definition y_inverted : ParameterModel :=
  {| param_name := "y"; param_type := "range";
     param_bounds := Some [number 3; number 1];
     param_values := None; param_value := PyNone;
     param_log_scale := None |}.

Definition request (objective_name : string) (minimize : bool)
    (parameters : list ParameterModel) : ExperimentRequest :=
  {| req_name := "demo"; req_parameters := parameters;
     req_objective_name := objective_name; req_minimize := minimize |}.

Definition score (x : float) : TrialCompletionRequest :=
  {| completion_score := x |}.

(** A file system without files, on which the path
    "/readonly/demo.json" cannot be written. *)
Definition disk : FileSystem :=
  {| files := ∅; unwritable := {["/readonly/demo.json"]} |}.

Definition empty : @State engine := @Build_State engine ∅ disk.

(** The experiment "demo" over x in [0, 10]. *)
Definition experiment (objective_name : string) (minimize : bool)
    (trials : list Trial) (next : Z) : Experiment :=
  {| spec := {| spec_name := "demo";
                spec_parameters := [Range "x" (number 0) (number 10) false];
                spec_objective_name := objective_name;
                spec_minimize := minimize |};
     ledger := trials; next_index := next |}.

Definition trial (index : Z) (status : Status) (outcome : option float)
    : Trial :=
  {| trial_index := index; trial_parameters := [("x", PyFloat (number 0))];
     trial_status := status; trial_outcome := outcome |}.

(** A registry that holds one experiment, under "demo". *)
Definition holding (e : Experiment) : @State engine :=
  @Build_State engine {["demo" := Some e]} disk.

(** "demo" as just created, maximizing "score". *)
Definition fresh : Experiment := experiment "score" false [] 0.

(** "demo" maximizing "score", after two trials scored 5 and 7 (the
    scenario of section 8 of the specification). *)
Definition scenario_experiment : Experiment :=
  experiment "score" false
    [trial 0 Completed (Some (number 5));
     trial 1 Completed (Some (number 7))] 2.

Definition scenario : @State engine := holding scenario_experiment.

(** The requests that lead from the empty registry to the scenario. *)
Definition scenario_requests : list Request :=
  [CreateExperiment (request "score" false [x]);
   GetNextTrial "demo"; CompleteTrial "demo" 0 (score (number 5));
   GetNextTrial "demo"; CompleteTrial "demo" 1 (score (number 7))].

(** "demo" minimizing "loss", with trial 0 issued. *)
Definition loss_experiment : Experiment :=
  experiment "loss" true [trial 0 Proposed None] 1.

Definition loss_state : @State engine := holding loss_experiment.

Definition loss_requests : list Request :=
  [CreateExperiment (request "loss" true [x]); GetNextTrial "demo"].

(** The scenario, checkpointed to "demo.json" and then advanced by one
    more trial. *)
Definition advanced_experiment : Experiment :=
  experiment "score" false
    [trial 0 Completed (Some (number 5));
     trial 1 Completed (Some (number 7));
     trial 2 Proposed None] 3.

Definition saved : @State engine :=
  @Build_State engine {["demo" := Some advanced_experiment]}
    {| files := {["demo.json" := save scenario_experiment]};
       unwritable := unwritable disk |}.

(** Two more suggestions on the scenario, with a completion and the
    creation of another experiment in between. *)
Definition more_requests : list Request :=
  [GetNextTrial "demo";
   CompleteTrial "demo" 2 (score (number 1));
   CreateExperiment
     {| req_name := "other"; req_parameters := [x];
        req_objective_name := "score"; req_minimize := true |};
   GetNextTrial "demo"].

(** "demo" maximizing "score", after a first trial scored NaN and a
    second scored 5. *)
Definition nan_experiment : Experiment :=
  experiment "score" false
    [trial 0 Completed (Some NaN); trial 1 Completed (Some (number 5))] 2.

(** The experiment "other", minimizing "score", with trial 0 issued. *)
Definition other_experiment : Experiment :=
  {| spec := {| spec_name := "other";
                spec_parameters := [Range "x" (number 0) (number 10) false];
                spec_objective_name := "score";
                spec_minimize := true |};
     ledger := [trial 0 Proposed None]; next_index := 1 |}.

(** A registry that holds the scenario under "demo" and a second
    experiment under "other". *)
Definition two : @State engine :=
  @Build_State engine
    {["demo" := Some scenario_experiment; "other" := Some other_experiment]}
    disk.

End Demo.

(** ** Service information (lines 54-62) *)

Record RootResponse := {
  root_service : string;
  root_version : string;
  root_status : string;
  root_active_experiments : nat
}.

(** The "type" key of a dictionary of [ax_parameters]. *)
Definition ax_type (p : AxParameter) : string :=
  match p with
  | AxRange _ _ _ => "range"
  | AxChoice _ _ => "choice"
  | AxFixed _ _ => "fixed"
  end.

Section Info.
Context `{E : Engine}.

(** GET /, lines 55-62. *)
Definition root (st : State) : RootResponse :=
  {| root_service := "Iris Ax Optimization Service";
     root_version := "1.0.0";
     root_status := "running";
     root_active_experiments := size (experiments st) |}.

(** The path parameter [experiment_id] of a request, for the five routes
    that have one. *)
Definition request_id (rq : Request) : option string :=
  match rq with
  | GetNextTrial i | CompleteTrial i _ _ | GetBest i | GetTrials i
  | SaveCheckpoint i _ => Some i
  | CreateExperiment _ | LoadCheckpoint _ => None
  end.

(** The registry key an answered request may have assigned or whose
    client it may have used. *)
Definition touched (ev : Request * (HTTPException + Response))
    : option string :=
  match ev with
  | (CreateExperiment request, _) => Some (req_name request)
  | (LoadCheckpoint _, inr (LoadOk r)) => Some (loaded_experiment_id r)
  | (LoadCheckpoint _, _) => None
  | (rq, _) => request_id rq
  end.

(** The identifiers that the successful creations and loads of a trace
    answered with, in order. *)
Definition registered (trace : list (Request * (HTTPException + Response)))
    : list string :=
  omap (λ ev, match ev with
              | (CreateExperiment _, inr (CreateOk r)) =>
                Some (created_experiment_id r)
              | (LoadCheckpoint _, inr (LoadOk r)) =>
                Some (loaded_experiment_id r)
              | _ => None
              end) trace.

End Info.

(** A request for a second experiment, "other", over the same range. *)
Definition other_request : ExperimentRequest :=
  {| req_name := "other"; req_parameters := [Demo.x];
     req_objective_name := "score"; req_minimize := true |}.

(** ** The static server of the web demo (web-demo/server.py) *)

Module Server.


(** [s.endswith(suffix)]: the last [len(suffix)] characters are
    [suffix]. *)
Definition endswith (s suffix : string) : bool :=
  (String.length suffix <=? String.length s)%nat
  && String.eqb
       (String.substring (String.length s - String.length suffix)
          (String.length suffix) s)
       suffix.

(** [CORSHTTPRequestHandler.end_headers], lines 13-24: the headers sent
    before the call of the base class, for the request path [path]. *)
Definition end_headers (path : string) : list (string * string) :=
  ([("Cross-Origin-Embedder-Policy", "require-corp");
    ("Cross-Origin-Opener-Policy", "same-origin")]
   ++ (if endswith path ".wasm" then
         [("Content-Type", "application/wasm")]
       else if endswith path ".js" then
         [("Content-Type", "application/javascript")]
       else []))%list.


End Server.

(** ** Properties of the handlers, for every engine *)

(** The parameter types the loop of lines 88-107 has a branch for. *)
Definition recognized (param : ParameterModel) : bool :=
  String.eqb (param_type param) "range"
  || String.eqb (param_type param) "choice"
  || String.eqb (param_type param) "fixed".

(** The request with another parameter list. *)
Definition with_parameters (request : ExperimentRequest)
    (parameters : list ParameterModel) : ExperimentRequest :=
  {| req_name := req_name request;
     req_parameters := parameters;
     req_objective_name := req_objective_name request;
     req_minimize := req_minimize request |}.

Section ServiceProperties.
Context `{E : Engine}.

Lemma fold_append_flat_map {A B} (f : A → list B) (l : list A) (acc : list B) :
  fold_left (λ acc x, (acc ++ f x)%list) l acc = (acc ++ flat_map f l)%list.
Proof.
  revert acc. induction l as [|x l IH]; intros acc; simpl.
  - by rewrite app_nil_r.
  - by rewrite IH, app_assoc.
Qed.

Lemma convert_parameters_flat_map (parameters : list ParameterModel) :
  convert_parameters parameters = flat_map to_ax parameters.
Proof. unfold convert_parameters. by rewrite fold_append_flat_map. Qed.

Lemma to_ax_recognized (param : ParameterModel) :
  recognized param = true → ∃ p, to_ax param = [p] ∧ ax_name p = param_name param.
Proof.
  unfold recognized, to_ax. intros H.
  destruct (String.eqb (param_type param) "range"); [eauto|].
  destruct (String.eqb (param_type param) "choice"); [eauto|].
  destruct (String.eqb (param_type param) "fixed"); [eauto|done].
Qed.

Lemma to_ax_unrecognized (param : ParameterModel) :
  recognized param = false → to_ax param = [].
Proof.
  unfold recognized, to_ax. intros H.
  destruct (String.eqb (param_type param) "range"); [done|].
  destruct (String.eqb (param_type param) "choice"); [done|].
  by destruct (String.eqb (param_type param) "fixed").
Qed.

Lemma convert_parameters_filter (parameters : list ParameterModel) :
  convert_parameters (List.filter recognized parameters)
  = convert_parameters parameters.
Proof.
  rewrite !convert_parameters_flat_map.
  induction parameters as [|p ps IH]; [done|]. simpl.
  destruct (recognized p) eqn:Hp; simpl.
  - by rewrite IH.
  - by rewrite IH, (to_ax_unrecognized p Hp).
Qed.

Lemma convert_parameters_length (parameters : list ParameterModel) :
  length (convert_parameters parameters)
  = length (List.filter recognized parameters).
Proof.
  rewrite convert_parameters_flat_map.
  induction parameters as [|p ps IH]; [done|]. simpl.
  rewrite length_app, IH.
  destruct (recognized p) eqn:Hp; simpl.
  - by destruct (to_ax_recognized p Hp) as (q & -> & _).
  - by rewrite (to_ax_unrecognized p Hp).
Qed.

Lemma convert_parameters_names (parameters : list ParameterModel) :
  map ax_name (convert_parameters parameters)
  = map param_name (List.filter recognized parameters).
Proof.
  rewrite convert_parameters_flat_map.
  induction parameters as [|p ps IH]; [done|]. simpl.
  rewrite map_app, IH.
  destruct (recognized p) eqn:Hp; simpl.
  - by destruct (to_ax_recognized p Hp) as (q & -> & <-).
  - by rewrite (to_ax_unrecognized p Hp).
Qed.

(** What [create_experiment] does once the engine has answered. *)
Lemma create_experiment_accepted (request : ExperimentRequest) (st : State)
    (client client' : AxClient) :
  AxClient_new = inr client →
  ax_create_experiment client (req_name request)
    (convert_parameters (req_parameters request))
    [(req_objective_name request,
      {| op_minimize := req_minimize request |})] = inr client' →
  create_experiment request st
  = (inr {| created_experiment_id := req_name request;
            created_status := "created";
            created_parameters :=
              length (convert_parameters (req_parameters request)) |},
     set_experiment (req_name request) client' st).
Proof. intros Hnew Hcreate. unfold create_experiment. by rewrite Hnew, Hcreate. Qed.

Lemma create_experiment_rejected (request : ExperimentRequest) (st : State)
    (client : AxClient) (e : string) :
  AxClient_new = inr client →
  ax_create_experiment client (req_name request)
    (convert_parameters (req_parameters request))
    [(req_objective_name request,
      {| op_minimize := req_minimize request |})] = inl e →
  create_experiment request st = (inl (internal_error e), st).
Proof. intros Hnew Hcreate. unfold create_experiment. by rewrite Hnew, Hcreate. Qed.

(** A failed creation is a 500 and leaves the state alone. *)
Lemma create_experiment_failure (request : ExperimentRequest) (st st' : State)
    (err : HTTPException) :
  create_experiment request st = (inl err, st') →
  status_code err = 500%Z ∧ st' = st.
Proof.
  unfold create_experiment. destruct AxClient_new as [e|client].
  - by intros [= <- <-].
  - destruct ax_create_experiment as [e|client']; [|done].
    by intros [= <- <-].
Qed.

(** The only registry key a creation can touch is the request's name. *)
Lemma create_experiment_frame (request : ExperimentRequest) (st : State)
    (j : string) :
  j ≠ req_name request →
  experiments (create_experiment request st).2 !! j = experiments st !! j.
Proof.
  intros Hj. unfold create_experiment. destruct AxClient_new as [e|client]; [done|].
  destruct ax_create_experiment as [e|client']; [done|]. simpl.
  by rewrite lookup_insert_ne.
Qed.


(** What [complete_trial] hands to the engine: the score under the key
    "score", whatever objective the experiment was created with. *)
Lemma complete_trial_raw_data (experiment_id : string) (trial_index : Z)
    (completion : TrialCompletionRequest) (st : State) (client : AxClient) :
  experiments st !! experiment_id = Some client →
  complete_trial experiment_id trial_index completion st
  = let r := ax_complete_trial client trial_index
               [("score", completion_score completion)] in
    (match r.1 with
     | inl e => inl (internal_error e)
     | inr _ => inr {| completed_status := "completed";
                       completed_trial_index := trial_index |}
     end, set_experiment experiment_id r.2 st).
Proof.
  intros H. unfold complete_trial. rewrite H. simpl.
  by destruct ax_complete_trial as [[e|[]] c].
Qed.

(** The handlers past the membership test. *)
Lemma get_next_trial_found (experiment_id : string) (st : State)
    (client : AxClient) :
  experiments st !! experiment_id = Some client →
  get_next_trial experiment_id st
  = let r := ax_get_next_trial client in
    (match r.1 with
     | inl e => inl (internal_error e)
     | inr (parameters, trial_index) =>
       inr {| next_parameters := parameters;
              next_trial_index := trial_index |}
     end, set_experiment experiment_id r.2 st).
Proof.
  intros H. unfold get_next_trial. rewrite H. simpl.
  by destruct ax_get_next_trial as [[e|[??]] c].
Qed.

Lemma get_best_found (experiment_id : string) (st : State)
    (client : AxClient) :
  experiments st !! experiment_id = Some client →
  get_best experiment_id st
  = (match ax_get_best_parameters client with
     | inl e => inl (internal_error e)
     | inr None =>
       inl (internal_error "cannot unpack non-iterable NoneType object")
     | inr (Some (_, None)) =>
       inl (internal_error "'NoneType' object is not subscriptable")
     | inr (Some (best_parameters, Some (means, _))) =>
       match map snd means with
       | [] => inl (internal_error "list index out of range")
       | score :: _ =>
         inr {| best_parameters := best_parameters; best_score := score |}
       end
     end, st).
Proof.
  intros H. unfold get_best. rewrite H.
  destruct ax_get_best_parameters as [e|[[p [[means cov]|]]|]]; try done.
  by destruct (map snd means).
Qed.

Lemma get_trials_found (experiment_id : string) (st : State)
    (client : AxClient) :
  experiments st !! experiment_id = Some client →
  get_trials experiment_id st
  = (match ax_get_trials_data_frame client with
     | inl e => inl (internal_error e)
     | inr trials => inr (default [] trials)
     end, st).
Proof.
  intros H. unfold get_trials. rewrite H.
  by destruct ax_get_trials_data_frame as [e|[trials|]].
Qed.

Lemma save_checkpoint_found (experiment_id filepath : string) (st : State)
    (client : AxClient) :
  experiments st !! experiment_id = Some client →
  save_checkpoint experiment_id filepath st
  = let r := ax_save_to_json_file client filepath (storage st) in
    (match r.1 with
     | inl e => inl (internal_error e)
     | inr _ => inr {| saved_status := "saved"; saved_filepath := filepath |}
     end, {| experiments := experiments st; storage := r.2 |}).
Proof.
  intros H. unfold save_checkpoint. rewrite H. simpl.
  by destruct ax_save_to_json_file as [[e|[]] w].
Qed.

(** Which registry entries a handler can change. *)
Lemma get_next_trial_entry (experiment_id j : string) (st : State) :
  experiments (get_next_trial experiment_id st).2 !! j
  = if decide (j = experiment_id)
    then (λ c, (ax_get_next_trial c).2) <$> experiments st !! experiment_id
    else experiments st !! j.
Proof.
  unfold get_next_trial.
  destruct (experiments st !! experiment_id) as [client|] eqn:H.
  - simpl. destruct (ax_get_next_trial client) as [[e|[??]] c]; simpl;
      rewrite lookup_insert; repeat case_decide; congruence.
  - simpl. case_decide; congruence.
Qed.

Lemma complete_trial_entry (experiment_id j : string) (trial_index : Z)
    (completion : TrialCompletionRequest) (st : State) :
  experiments (complete_trial experiment_id trial_index completion st).2 !! j
  = if decide (j = experiment_id)
    then (λ c, (ax_complete_trial c trial_index
                  [("score", completion_score completion)]).2)
         <$> experiments st !! experiment_id
    else experiments st !! j.
Proof.
  unfold complete_trial.
  destruct (experiments st !! experiment_id) as [client|] eqn:H.
  - simpl. destruct (ax_complete_trial client _ _) as [[e|[]] c]; simpl;
      rewrite lookup_insert; repeat case_decide; congruence.
  - simpl. case_decide; congruence.
Qed.

Lemma get_best_state (experiment_id : string) (st : State) :
  (get_best experiment_id st).2 = st.
Proof.
  unfold get_best. destruct (experiments st !! experiment_id); [|done].
  destruct ax_get_best_parameters as [e|[[p [[means cov]|]]|]]; try done.
  by destruct (map snd means).
Qed.

Lemma get_trials_state (experiment_id : string) (st : State) :
  (get_trials experiment_id st).2 = st.
Proof.
  unfold get_trials. destruct (experiments st !! experiment_id); [|done].
  by destruct ax_get_trials_data_frame as [e|[trials|]].
Qed.

Lemma save_checkpoint_experiments (experiment_id filepath : string)
    (st : State) :
  experiments (save_checkpoint experiment_id filepath st).2 = experiments st.
Proof.
  unfold save_checkpoint. destruct (experiments st !! experiment_id); [|done].
  by destruct ax_save_to_json_file as [[e|[]] w].
Qed.

Lemma load_checkpoint_frame (filepath j : string) (st : State) :
  (∀ r, (load_checkpoint filepath st).1 = inr r →
        loaded_experiment_id r ≠ j) →
  experiments (load_checkpoint filepath st).2 !! j = experiments st !! j.
Proof.
  unfold load_checkpoint. destruct ax_load_from_json_file as [e|client]; [done|].
  destruct ax_experiment_name as [e|i]; [done|]. simpl.
  intros H. rewrite lookup_insert_ne; [done|]. by apply (H _ eq_refl).
Qed.

Lemma create_experiment_frame_success (request : ExperimentRequest)
    (j : string) (st : State) :
  (∀ r, (create_experiment request st).1 = inr r → req_name request ≠ j) →
  experiments (create_experiment request st).2 !! j = experiments st !! j.
Proof.
  unfold create_experiment. destruct AxClient_new as [e|client]; [done|].
  destruct ax_create_experiment as [e|client']; [done|]. simpl.
  intros H. rewrite lookup_insert_ne; [done|]. by apply (H _ eq_refl).
Qed.

(** Where a registry entry can come from. *)
Lemma create_experiment_entry (request : ExperimentRequest) (j : string)
    (st : State) (c : AxClient) :
  experiments (create_experiment request st).2 !! j = Some c →
  experiments st !! j = Some c
  ∨ ∃ client,
      AxClient_new = inr client
      ∧ ax_create_experiment client (req_name request)
          (convert_parameters (req_parameters request))
          [(req_objective_name request,
            {| op_minimize := req_minimize request |})] = inr c.
Proof.
  unfold create_experiment. destruct AxClient_new as [e|client]; [by left|].
  destruct ax_create_experiment as [e|client'] eqn:Hc; [by left|]. simpl.
  rewrite lookup_insert. case_decide; [|by left].
  intros [= <-]. right. by exists client.
Qed.

Lemma load_checkpoint_entry (filepath j : string) (st : State)
    (c : AxClient) :
  experiments (load_checkpoint filepath st).2 !! j = Some c →
  experiments st !! j = Some c
  ∨ ax_load_from_json_file filepath (storage st) = inr c.
Proof.
  unfold load_checkpoint.
  destruct ax_load_from_json_file as [e|client]; [by left|].
  destruct ax_experiment_name as [e|i]; [by left|]. simpl.
  rewrite lookup_insert. case_decide; [|by left].
  intros [= <-]. by right.
Qed.

(** Only [save_checkpoint] writes to the storage. *)
Lemma create_experiment_storage (request : ExperimentRequest) (st : State) :
  storage (create_experiment request st).2 = storage st.
Proof.
  unfold create_experiment. destruct AxClient_new as [e|client]; [done|].
  by destruct ax_create_experiment.
Qed.

Lemma get_next_trial_storage (experiment_id : string) (st : State) :
  storage (get_next_trial experiment_id st).2 = storage st.
Proof.
  unfold get_next_trial. destruct (experiments st !! experiment_id); [|done].
  by destruct ax_get_next_trial as [[e|[??]] c].
Qed.

Lemma complete_trial_storage (experiment_id : string) (trial_index : Z)
    (completion : TrialCompletionRequest) (st : State) :
  storage (complete_trial experiment_id trial_index completion st).2
  = storage st.
Proof.
  unfold complete_trial. destruct (experiments st !! experiment_id); [|done].
  by destruct ax_complete_trial as [[e|[]] c].
Qed.

Lemma load_checkpoint_storage (filepath : string) (st : State) :
  storage (load_checkpoint filepath st).2 = storage st.
Proof.
  unfold load_checkpoint. destruct ax_load_from_json_file; [done|].
  by destruct ax_experiment_name.
Qed.

Lemma save_checkpoint_storage (experiment_id filepath : string) (st : State) :
  storage (save_checkpoint experiment_id filepath st).2
  = match experiments st !! experiment_id with
    | Some client => (ax_save_to_json_file client filepath (storage st)).2
    | None => storage st
    end.
Proof.
  unfold save_checkpoint. destruct (experiments st !! experiment_id); [|done].
  by destruct ax_save_to_json_file as [[e|[]] w].
Qed.

End ServiceProperties.

(** ** The claims that the handlers decide alone *)

Section HandlerTheorems.
Context `{E : Engine}.

(** C4: for an [experiment_id] that is not a key of [experiments],
    get_next_trial, complete_trial, get_best, get_trials and
    save_checkpoint each raise the 404 "Experiment not found" and leave
    the registry and the storage as they were. *)
Theorem unknown_experiment_not_found (st : State) (experiment_id : string) :
  experiments st !! experiment_id = None →
  get_next_trial experiment_id st = (inl ExperimentNotFound, st)
  ∧ (∀ trial_index completion,
        complete_trial experiment_id trial_index completion st
        = (inl ExperimentNotFound, st))
  ∧ get_best experiment_id st = (inl ExperimentNotFound, st)
  ∧ get_trials experiment_id st = (inl ExperimentNotFound, st)
  ∧ (∀ filepath,
        save_checkpoint experiment_id filepath st
        = (inl ExperimentNotFound, st)).
Proof.
  intros H.
  unfold get_next_trial, complete_trial, get_best, get_trials,
    save_checkpoint.
  rewrite H. repeat split.
Qed.

(** C9: when the registry already has an entry under [i] and the
    checkpoint at [filepath] loads to a client whose experiment name is
    [i], load_checkpoint answers "loaded" with [i], the entry under [i]
    becomes the loaded client, and every other entry stays. *)
Theorem load_checkpoint_replaces_entry (st : State) (filepath i : string)
    (client : AxClient) :
  is_Some (experiments st !! i) →
  ax_load_from_json_file filepath (storage st) = inr client →
  ax_experiment_name client = inr i →
  ∃ st',
    load_checkpoint filepath st
    = (inr {| loaded_status := "loaded"; loaded_experiment_id := i |}, st')
    ∧ experiments st' !! i = Some client
    ∧ (∀ j, j ≠ i → experiments st' !! j = experiments st !! j)
    ∧ storage st' = storage st.
Proof.
  intros _ Hload Hname. exists (set_experiment i client st).
  unfold load_checkpoint. rewrite Hload, Hname. simpl.
  split; [done|]. split; [apply lookup_insert_eq|].
  split; [|done]. intros j Hj. by apply lookup_insert_ne.
Qed.

(** C10: parameters whose type is none of 'range', 'choice', 'fixed'
    play no part in create_experiment: the call behaves exactly as on
    the request without them, and a successful answer counts the
    parameters of a recognized type only. *)
Theorem unrecognized_parameters_omitted (request : ExperimentRequest)
    (st : State) :
  create_experiment request st
  = create_experiment
      (with_parameters request
         (List.filter recognized (req_parameters request))) st
  ∧ ∀ r st',
      create_experiment request st = (inr r, st') →
      created_parameters r
      = length (List.filter recognized (req_parameters request)).
Proof.
  split.
  - unfold create_experiment, with_parameters. simpl.
    by rewrite convert_parameters_filter.
  - intros r st'. unfold create_experiment.
    destruct AxClient_new as [e|client]; [done|].
    destruct ax_create_experiment as [e|client']; [done|].
    intros [= <- _]. simpl. apply convert_parameters_length.
Qed.

End HandlerTheorems.

(** ** The reference engine: ledger and adapter lemmas *)

Import Reference.

Lemma find_trial_None (index : Z) (l : list Trial) :
  find_trial index l = None ↔ ∀ tr, tr ∈ l → trial_index tr ≠ index.
Proof.
  unfold find_trial. induction l as [|t l IH]; simpl.
  - split; [|done]. intros _ tr Htr. by apply elem_of_nil in Htr.
  - destruct (Z.eqb_spec (trial_index t) index) as [Heq|Hne].
    + split; [done|]. intros H. exfalso. apply (H t); [left|done].
    + rewrite IH. split.
      * intros H tr [->|Htr]%elem_of_cons; [done|by apply H].
      * intros H tr Htr. apply H. by right.
Qed.


(** *** Comparisons of floats *)







(** *** The best observation *)












Lemma load_from_bytes (str : EngineError → string) (filepath : string)
    (w : FileSystem) (bytes : string) (e : Experiment) :
  files w !! filepath = Some bytes →
  load bytes = inr e →
  load_from str filepath w = inr (Some e).
Proof. intros Hfile Hload. unfold load_from. by rewrite Hfile, Hload. Qed.

(** *** The checkpoint codec: what is written is read back *)

Lemma append_String (c : ascii) (a b : string) :
  String c a ++ b = String c (a ++ b).
Proof. reflexivity. Qed.

Lemma append_assoc (a b c : string) : (a ++ b) ++ c = a ++ (b ++ c).
Proof.
  induction a as [|x a IH]; [done|]. by rewrite !append_String, IH.
Qed.

Lemma append_empty (a : string) : a ++ "" = a.
Proof. induction a as [|x a IH]; [done|]. by rewrite append_String, IH. Qed.

(** Brings the bytes to be read to the front. *)
Ltac front := rewrite ?append_assoc, ?append_String; simpl.

Lemma reads_positive (p : positive) : reads write_positive read_positive p.
Proof.
  intros rest. induction p as [p IH|p IH|]; simpl; front; [| |done].
  - by rewrite IH.
  - by rewrite IH.
Qed.

Lemma reads_Z (z : Z) : reads write_Z read_Z z.
Proof.
  intros rest. destruct z as [|p|p]; simpl; front; [done| |];
    by rewrite reads_positive.
Qed.

Lemma reads_nat (n : nat) : reads write_nat read_nat n.
Proof.
  intros rest. unfold read_nat, write_nat. rewrite reads_Z. simpl.
  rewrite (proj2 (Z.leb_le 0 (Z.of_nat n))) by lia.
  by rewrite Nat2Z.id.
Qed.

Lemma reads_bool (b : bool) : reads write_bool read_bool b.
Proof. intros rest. by destruct b. Qed.

Lemma read_bytes_app (a rest : string) :
  read_bytes (String.length a) (a ++ rest) = Some (a, rest).
Proof. induction a as [|c a IH]; simpl; front; [done|]. by rewrite IH. Qed.

Lemma reads_string (s : string) : reads write_string read_string s.
Proof.
  intros rest. unfold read_string, write_string. front.
  rewrite reads_nat. simpl. apply read_bytes_app.
Qed.

Lemma reads_float (x : float) : reads write_float read_float x.
Proof.
  intros rest. destruct x as [[n d]|negative|]; simpl; front; [| |done].
  - rewrite reads_Z. simpl. by rewrite reads_positive.
  - by rewrite reads_bool.
Qed.

Lemma reads_option {A} (write : A → string) (read : Decoder A)
    (o : option A) :
  (∀ x, o = Some x → reads write read x) →
  reads (write_option write) (read_option read) o.
Proof.
  intros H rest. destruct o as [x|]; simpl; front; [|done].
  by rewrite (H x eq_refl).
Qed.

Lemma read_write_items {A} (write : A → string) (read : Decoder A)
    (l : list A) (rest : string) :
  Forall (reads write read) l →
  read_items read (length l) (write_items write l ++ rest) = Some (l, rest).
Proof.
  induction 1 as [|x l Hx Hl IH]; simpl; [done|]. front.
  rewrite Hx. simpl. by rewrite IH.
Qed.

Lemma reads_list {A} (write : A → string) (read : Decoder A) (l : list A) :
  Forall (reads write read) l →
  reads (write_list write) (read_list read) l.
Proof.
  intros H rest. unfold read_list, write_list. front.
  rewrite reads_nat. simpl. by apply read_write_items.
Qed.

Lemma reads_pair {A B} (wa : A → string) (wb : B → string)
    (ra : Decoder A) (rb : Decoder B) (p : A * B) :
  reads wa ra p.1 → reads wb rb p.2 →
  reads (write_pair wa wb) (read_pair ra rb) p.
Proof.
  intros Ha Hb rest. destruct p as [a b]. unfold read_pair, write_pair.
  simpl in *. front. rewrite Ha. simpl. by rewrite Hb.
Qed.

Lemma Forall_depth {A} (f : A → nat) (l : list A) (n : nat) :
  (foldr (λ x, Nat.max (f x)) 0 l < n)%nat → Forall (λ x, (f x < n)%nat) l.
Proof.
  induction l as [|x l IH]; simpl; [constructor|].
  intros H. constructor; [lia|]. apply IH. lia.
Qed.

(** A value is read back by any reader with more fuel than the value is
    deep. *)
Lemma read_write_any (v : Any) :
  ∀ fuel, (depth v < fuel)%nat → reads write_any (read_any fuel) v.
Proof.
  induction v as [|b|z|x|s|l IH|d IH] using Any_ind;
    intros [|fuel] Hfuel rest; try lia; simpl; front.
  - done.
  - by rewrite reads_bool.
  - by rewrite reads_Z.
  - by rewrite reads_float.
  - by rewrite reads_string.
  - rewrite reads_list; [done|].
    simpl in Hfuel. apply Nat.succ_lt_mono, Forall_depth in Hfuel.
    rewrite Forall_forall in IH, Hfuel. apply Forall_forall.
    intros x Hx. apply IH; [done|]. by apply Hfuel.
  - rewrite (reads_list (λ kv, write_string kv.1 ++ write_any kv.2)); [done|].
    simpl in Hfuel.
    apply Nat.succ_lt_mono, (Forall_depth (λ kv, depth kv.2)) in Hfuel.
    rewrite Forall_forall in IH, Hfuel. apply Forall_forall.
    intros kv Hkv.
    apply (reads_pair write_string write_any read_string (read_any fuel));
      [apply reads_string|]. apply IH; [done|]. by apply Hfuel.
Qed.

Lemma reads_value (v : Any) : reads write_value read_value v.
Proof.
  intros rest. unfold read_value, write_value. front.
  rewrite reads_nat. simpl.
  apply (read_write_any v (S (depth v))). lia.
Qed.

Lemma reads_parameter (p : ParameterSpec) :
  reads write_parameter read_parameter p.
Proof.
  intros rest.
  destruct p as [name lower upper log_scale|name values|name value];
    simpl; front.
  - rewrite reads_string. simpl.
    rewrite reads_float. simpl. rewrite reads_float. simpl.
    by rewrite reads_bool.
  - rewrite reads_string. simpl.
    rewrite reads_list; [done|]. apply Forall_forall. intros v _.
    apply reads_value.
  - rewrite reads_string. simpl. by rewrite reads_value.
Qed.

Lemma reads_spec (s : ExperimentSpec) : reads write_spec read_spec s.
Proof.
  intros rest. destruct s as [name parameters objective_name minimize].
  unfold read_spec, write_spec. simpl. front.
  rewrite reads_string. simpl.
  rewrite reads_list
    by (apply Forall_forall; intros p _; apply reads_parameter).
  simpl. rewrite reads_string. simpl. by rewrite reads_bool.
Qed.

Lemma reads_status (s : Status) : reads write_status read_status s.
Proof. intros rest. by destruct s. Qed.

Lemma reads_trial (t : Trial) : reads write_trial read_trial t.
Proof.
  intros rest. destruct t as [index parameters status outcome].
  unfold read_trial, write_trial. simpl. front.
  rewrite reads_Z. simpl.
  rewrite reads_list.
  2:{ apply Forall_forall. intros kv _.
      apply reads_pair; [apply reads_string|apply reads_value]. }
  simpl. rewrite reads_status. simpl.
  rewrite reads_option; [done|]. intros x _. apply reads_float.
Qed.

(** A payload of the supported version is read back as it was
    written. *)
Lemma read_write_envelope (env : Envelope) :
  env_version env = FORMAT_VERSION →
  read_envelope (write_envelope env) = inr env.
Proof.
  destruct env as [version s trials snap]. simpl. intros Hversion.
  unfold read_envelope, write_envelope. simpl.
  rewrite reads_nat, Hversion, Nat.eqb_refl. rewrite reads_spec. simpl.
  rewrite reads_list
    by (apply Forall_forall; intros t _; apply reads_trial).
  simpl. rewrite <- (append_empty (write_string snap)).
  by rewrite reads_string.
Qed.

Lemma restore_snapshot (e : Experiment) :
  restore (snapshot e) = Some (next_index e).
Proof.
  unfold restore, snapshot.
  rewrite <- (append_empty (write_Z (next_index e))). by rewrite reads_Z.
Qed.

(** The round-trip law of section 4.5: loading what save wrote gives
    the experiment that was saved. *)
Lemma load_save (e : Experiment) : load (save e) = inr e.
Proof.
  unfold load, save. rewrite read_write_envelope by done. simpl.
  rewrite restore_snapshot. by destruct e.
Qed.

(** A payload of another version is rejected as such, whatever follows
    the version tag. *)
Lemma load_unsupported_version (version : nat) (rest : string) :
  version ≠ FORMAT_VERSION →
  load (write_nat version ++ rest) = inl UnsupportedVersion.
Proof.
  intros Hversion. unfold load, read_envelope. rewrite reads_nat.
  by rewrite (proj2 (Nat.eqb_neq _ _) Hversion).
Qed.

(** Bytes that are no payload, and a payload cut short or with bytes
    after it, are corrupt. *)
Lemma load_corrupt :
  load "not a checkpoint" = inl CorruptCheckpoint
  ∧ load (String.substring 0 20 (save Demo.scenario_experiment))
    = inl CorruptCheckpoint
  ∧ load (save Demo.scenario_experiment ++ "!") = inl CorruptCheckpoint.
Proof. vm_compute. repeat split. Qed.

(** ** The claims that the engine decides, on the reference engine *)

Section ReferenceTheorems.
Variable strategy : ExperimentSpec → list Trial → Proposal.
Variable str : EngineError → string.

Local Abbreviation RE := (Reference.engine strategy str).

Implicit Types (st : @State RE) (e : Experiment).



(** What save_checkpoint does with a registered experiment: an
    unwritable destination is the 500 with the text of the engine's
    IOError and nothing changes; otherwise the bytes of the experiment
    are the new content of the file. *)
Lemma save_checkpoint_registered st (experiment_id filepath : string) e :
  experiments st !! experiment_id = Some (Some e) →
  save_checkpoint experiment_id filepath st
  = if decide (filepath ∈ unwritable (storage st))
    then (inl (internal_error (str IOError)), st)
    else (inr {| saved_status := "saved"; saved_filepath := filepath |},
          @Build_State RE (experiments st)
            {| files := <[filepath := save e]> (files (storage st));
               unwritable := unwritable (storage st) |}).
Proof.
  intros Hreg. rewrite (@save_checkpoint_found RE _ _ _ _ Hreg). simpl.
  case_decide; simpl; [by destruct st|done].
Qed.

(** C7: on the reference engine, when save_checkpoint has written an
    experiment to a file, load_checkpoint of that file puts an equal
    experiment under its name: get_trials answers the same rows, the next
    get_next_trial answers the same, and an index that it issues is the
    index of no trial of the saved experiment. *)
Theorem checkpoint_round_trip st (experiment_id filepath : string) e
    (r : SaveResponse) st1 :
  experiments st !! experiment_id = Some (Some e) →
  save_checkpoint experiment_id filepath st = (inr r, st1) →
  files (storage st1) !! filepath = Some (save e)
  ∧ ∃ st2,
      load_checkpoint filepath st1
      = (inr {| loaded_status := "loaded";
                loaded_experiment_id := spec_name (spec e) |}, st2)
      ∧ experiments st2 !! spec_name (spec e) = Some (Some e)
      ∧ (get_trials experiment_id st).1 = inr (all (ledger e))
      ∧ (get_trials (spec_name (spec e)) st2).1
        = (get_trials experiment_id st).1
      ∧ (get_next_trial (spec_name (spec e)) st2).1
        = (get_next_trial experiment_id st).1
      ∧ ∀ r' st3,
          get_next_trial (spec_name (spec e)) st2 = (inr r', st3) →
          ∀ tr, tr ∈ ledger e → trial_index tr ≠ next_trial_index r'.
Proof.
  intros Hreg. rewrite (save_checkpoint_registered _ _ _ _ Hreg).
  case_decide as Hw; [done|]. intros [= <- <-]. simpl.
  split; [apply lookup_insert_eq|].
  set (st1 := @Build_State RE (experiments st)
                {| files := <[filepath := save e]> (files (storage st));
                   unwritable := unwritable (storage st) |}).
  assert (Hload : ax_load_from_json_file filepath (storage st1)
                  = inr (Some e)).
  { apply (load_from_bytes str _ _ (save e)); [apply lookup_insert_eq|].
    apply load_save. }
  exists (@set_experiment RE (spec_name (spec e)) (Some e) st1).
  assert (Hreg2 : experiments
                    (@set_experiment RE (spec_name (spec e)) (Some e) st1)
                  !! spec_name (spec e) = Some (Some e))
    by apply lookup_insert_eq.
  split; [|split; [|split; [|split; [|split]]]].
  - unfold load_checkpoint. by rewrite Hload.
  - exact Hreg2.
  - by rewrite (@get_trials_found RE _ _ _ Hreg).
  - by rewrite (@get_trials_found RE _ _ _ Hreg2), (@get_trials_found RE _ _ _ Hreg).
  - by rewrite (@get_next_trial_found RE _ _ _ Hreg2),
      (@get_next_trial_found RE _ _ _ Hreg).
  - intros r' st3. rewrite (@get_next_trial_found RE _ _ _ Hreg2). simpl.
    destruct (strategy (spec e) (ledger e)); try done.
    unfold record_proposed.
    destruct (find_trial (next_index e) (ledger e)) eqn:Hfind; [done|].
    intros [= <- _]. simpl. by apply find_trial_None.
Qed.

(** Bytes that load accepts are a checkpoint that loads: the experiment
    they hold goes under the name of its spec. *)
Lemma load_checkpoint_bytes st (filepath bytes : string) e :
  files (storage st) !! filepath = Some bytes →
  load bytes = inr e →
  load_checkpoint filepath st
  = (inr {| loaded_status := "loaded";
            loaded_experiment_id := spec_name (spec e) |},
     @set_experiment RE (spec_name (spec e)) (Some e) st).
Proof.
  intros Hfile Hload.
  assert (H : ax_load_from_json_file filepath (storage st) = inr (Some e))
    by exact (load_from_bytes str _ _ _ _ Hfile Hload).
  unfold load_checkpoint. by rewrite H.
Qed.

End ReferenceTheorems.

(** ** Trial indices along a sequence of requests *)

Section TrialIndices.
Variable strategy : ExperimentSpec → list Trial → Proposal.
Variable str : EngineError → string.

Local Abbreviation RE := (Reference.engine strategy str).

Implicit Types (st : @State RE) (e : Experiment) (client : option Experiment).

Lemma suggest_next_index client :
  match (suggest strategy str client).2 with
  | Some e' => ∃ e, client = Some e ∧ (next_index e ≤ next_index e')%Z
  | None => client = None
  end.
Proof.
  destruct client as [e|]; simpl; [|done].
  destruct (strategy (spec e) (ledger e)); simpl;
    try (exists e; split; [done|lia]).
  destruct record_proposed; simpl; exists e; (split; [done|lia]).
Qed.

Lemma suggest_issued client (parameters : TParameterization) (index : Z) :
  (suggest strategy str client).1 = inr (parameters, index) →
  ∃ e e',
    client = Some e ∧ index = next_index e
    ∧ (suggest strategy str client).2 = Some e'
    ∧ next_index e' = (index + 1)%Z.
Proof.
  destruct client as [e|]; simpl; [|done].
  destruct (strategy (spec e) (ledger e)); simpl; try done.
  destruct record_proposed; simpl; [done|].
  intros [= -> <-]. by eexists e, _.
Qed.

Lemma observe_next_index client (index : Z) (outcome : MetricDict) :
  match (observe str client index outcome).2 with
  | Some e' => ∃ e, client = Some e ∧ next_index e' = next_index e
  | None => client = None
  end.
Proof.
  destruct client as [e|]; simpl; [|done].
  destruct completable; simpl; [by exists e|].
  destruct dict_get; simpl; [|by exists e].
  destruct record_completed; simpl; by exists e.
Qed.

Lemma counter_entry st st' (experiment_id : string) :
  experiments st' !! experiment_id = experiments st !! experiment_id →
  counter st' experiment_id = counter st experiment_id.
Proof. unfold counter. by intros ->. Qed.

Lemma handle_counter_mono st (rq : Request) (experiment_id : string) (n' : Z) :
  replaces experiment_id (rq, (handle rq st).1) = false →
  counter (handle rq st).2 experiment_id = Some n' →
  ∃ n, counter st experiment_id = Some n ∧ (n ≤ n')%Z.
Proof.
  assert (Hsame : ∀ st',
    experiments st' !! experiment_id = experiments st !! experiment_id →
    counter st' experiment_id = Some n' →
    ∃ n, counter st experiment_id = Some n ∧ (n ≤ n')%Z).
  { intros st' Heq. rewrite (counter_entry _ _ _ Heq). intros ->.
    exists n'. split; [done|lia]. }
  destruct rq as [request|i|i index completion|i|i|i filepath|filepath];
    simpl; intros Hrep.
  - apply Hsame, create_experiment_frame_success. intros r Hr.
    rewrite Hr in Hrep. by apply String.eqb_neq in Hrep.
  - unfold counter at 1.
    rewrite (@get_next_trial_entry RE). case_decide as Hi.
    + subst i. unfold counter.
      destruct (experiments st !! experiment_id) as [client|]; simpl; [|done].
      pose proof (suggest_next_index client) as Hs.
      destruct (suggest strategy str client).2 as [e'|]; [|done].
      destruct Hs as (e & -> & Hle). intros [= <-]. by exists (next_index e).
    + intros H. apply (Hsame st); [done|]. exact H.
  - unfold counter at 1.
    rewrite (@complete_trial_entry RE). case_decide as Hi.
    + subst i. unfold counter.
      destruct (experiments st !! experiment_id) as [client|]; simpl; [|done].
      pose proof (observe_next_index client index
                    [("score", completion_score completion)]) as Hs.
      destruct (observe str client index _).2 as [e'|]; [|done].
      destruct Hs as (e & -> & Heq). intros [= <-].
      exists (next_index e). split; [done|lia].
    + intros H. apply (Hsame st); [done|]. exact H.
  - apply Hsame. by rewrite (@get_best_state RE).
  - apply Hsame. by rewrite (@get_trials_state RE).
  - apply Hsame. by rewrite (@save_checkpoint_experiments RE).
  - apply Hsame, load_checkpoint_frame. intros r Hr.
    rewrite Hr in Hrep. by apply String.eqb_neq in Hrep.
Qed.

Lemma handle_issue st (experiment_id : string) (r : NextTrialResponse) :
  (get_next_trial experiment_id st).1 = inr r →
  ∃ n, counter st experiment_id = Some n ∧ next_trial_index r = n
       ∧ counter (get_next_trial experiment_id st).2 experiment_id
         = Some (n + 1)%Z.
Proof.
  unfold counter at 2.
  rewrite (@get_next_trial_entry RE), decide_True by done.
  unfold get_next_trial, counter.
  destruct (experiments st !! experiment_id) as [client|]; simpl; [|done].
  destruct (suggest strategy str client) as [[err|[parameters index]] client']
    eqn:Hs; simpl; [done|].
  intros [= <-]. simpl.
  destruct (suggest_issued client parameters index) as (e & e' & -> & -> & He' & Hn).
  { by rewrite Hs. }
  rewrite Hs in He'. simpl in He'. subst client'. exists (next_index e).
  simpl. by rewrite Hn.
Qed.

Lemma StronglySorted_lt_NoDup (l : list Z) : StronglySorted Z.lt l → NoDup l.
Proof.
  induction 1 as [|x l Hs IH Hall]; constructor; [|done].
  intros Hin. rewrite Forall_forall in Hall. specialize (Hall x Hin). lia.
Qed.

Lemma run_cons `{E : Engine} (rq : Request) (rqs : list Request) (st : State) :
  (run (rq :: rqs) st).1
  = (rq, (handle rq st).1) :: (run rqs (handle rq st).2).1.
Proof. reflexivity. Qed.

Lemma issued_cons `{E : Engine} (experiment_id : string)
    (ev : Request * (HTTPException + Response))
    (trace : list (Request * (HTTPException + Response))) :
  issued experiment_id (ev :: trace)
  = match ev with
    | (GetNextTrial i, inr (NextTrialOk r)) =>
      if String.eqb i experiment_id
      then next_trial_index r :: issued experiment_id trace
      else issued experiment_id trace
    | _ => issued experiment_id trace
    end.
Proof.
  unfold issued. simpl.
  destruct ev as [[] [|[]]]; try done. by destruct String.eqb.
Qed.

Lemma issued_sorted_above st (rqs : list Request) (experiment_id : string) :
  Forall (λ ev, replaces experiment_id ev = false) (run rqs st).1 →
  StronglySorted Z.lt (issued experiment_id (run rqs st).1)
  ∧ Forall (λ t, ∃ n, counter st experiment_id = Some n ∧ (n ≤ t)%Z)
           (issued experiment_id (run rqs st).1).
Proof.
  revert st. induction rqs as [|rq rqs IH]; intros st.
  { intros _. split; constructor. }
  rewrite (@run_cons RE). intros [Hrq Hrest]%Forall_cons.
  destruct (IH _ Hrest) as [Hsorted Habove].
  assert (Habove' : Forall (λ t, ∃ n, counter st experiment_id = Some n
                                      ∧ (n ≤ t)%Z)
                           (issued experiment_id (run rqs (handle rq st).2).1)).
  { eapply Forall_impl; [exact Habove|]. intros t (n' & Hn' & Hle).
    destruct (handle_counter_mono st rq experiment_id n' Hrq Hn')
      as (n & Hn & Hle').
    exists n. split; [done|lia]. }
  rewrite !(@issued_cons RE).
  destruct rq as [request|i|i index completion|i|i|i filepath|filepath];
    simpl in *; try by split.
  destruct (get_next_trial i st).1 as [err|r] eqn:Hr; simpl; [by split|].
  destruct (String.eqb_spec i experiment_id) as [->|Hne]; [|by split].
  destruct (handle_issue st experiment_id r Hr) as (n & Hn & Hidx & Hn').
  simpl. split.
  - constructor; [done|]. eapply Forall_impl; [exact Habove|].
    intros t (n' & Hc & Hle). rewrite Hn' in Hc. injection Hc as <-. lia.
  - constructor; [|done]. exists n. split; [done|lia].
Qed.

(** C6 (amended): on the reference engine, along any sequence of
    requests in which no successful creation or load puts another client
    under [experiment_id], the indices that the successful
    get_next_trial calls on it return are strictly increasing, so none
    comes twice. *)
Theorem trial_indices_strictly_increasing st (rqs : list Request)
    (experiment_id : string) :
  Forall (λ ev, replaces experiment_id ev = false) (run rqs st).1 →
  StronglySorted Z.lt (issued experiment_id (run rqs st).1)
  ∧ NoDup (issued experiment_id (run rqs st).1).
Proof.
  intros H. destruct (issued_sorted_above st rqs experiment_id H) as [Hs _].
  split; [done|]. by apply StronglySorted_lt_NoDup.
Qed.

End TrialIndices.

(** ** Validation at creation *)

Lemma validate_parameter_inl (p : AxParameter) (k : ValidationError) :
  validate_parameter p = inl k → defect k p.
Proof.
  destruct p as [name [[|lower [|upper [|]]]|] log_scale
                |name [[|v values]|]
                |name []]; cbn -[float_lt]; try (by intros [= <-]).
  destruct (float_lt lower upper) eqn:Hlt; cbn -[float_lt].
  - destruct log_scale; cbn -[float_lt]; [|done].
    destruct (float_lt (Finite 0) lower) eqn:Hpos; cbn -[float_lt]; [done|].
    by intros [= <-].
  - by intros [= <-] lo hi [= <- <-].
Qed.

Lemma validate_parameter_inr (p : AxParameter) (s : ParameterSpec)
    (k : ValidationError) :
  validate_parameter p = inr s → ¬ defect k p.
Proof.
  destruct p as [name [[|lower [|upper [|]]]|] log_scale
                |name [[|v values]|]
                |name []]; cbn -[float_lt]; try done;
    try (intros _; destruct k; cbn -[float_lt]; by intros ?).
  destruct (float_lt lower upper) eqn:Hlt; cbn -[float_lt]; [|done].
  destruct log_scale; cbn -[float_lt].
  - destruct (float_lt (Finite 0) lower) eqn:Hpos; cbn -[float_lt]; [|done].
    intros _. destruct k; cbn -[float_lt];
      first [ by intros [] | congruence
            | intros H; specialize (H lower upper eq_refl); congruence ].
  - intros _. destruct k; cbn -[float_lt];
      first [ by intros []
            | intros H; specialize (H lower upper eq_refl); congruence ].
Qed.

Lemma validate_each_inl (ps : list AxParameter) (k : ValidationError) :
  validate_each ps = inl k → ∃ p, p ∈ ps ∧ defect k p.
Proof.
  induction ps as [|p ps IH]; simpl; [done|].
  destruct (validate_parameter p) as [k'|s] eqn:Hp.
  - intros [= <-]. exists p. split; [left|by apply validate_parameter_inl].
  - destruct (validate_each ps) as [k'|ss]; [|done].
    intros [= <-]. destruct (IH eq_refl) as (q & Hq & Hd).
    exists q. split; [by right|done].
Qed.

Lemma validate_each_inr (ps : list AxParameter) (space : list ParameterSpec)
    (k : ValidationError) (p : AxParameter) :
  validate_each ps = inr space → p ∈ ps → ¬ defect k p.
Proof.
  revert space. induction ps as [|q ps IH]; intros space; simpl.
  - intros _ H. by apply elem_of_nil in H.
  - destruct (validate_parameter q) as [k'|s] eqn:Hq; [done|].
    destruct (validate_each ps) as [k'|ss]; [done|].
    intros _ [->|Hin]%elem_of_cons.
    + by apply validate_parameter_inr with s.
    + by apply (IH ss).
Qed.

Lemma defect_not_duplicate (p : AxParameter) : ¬ defect DuplicateParameter p.
Proof. intros H. by destruct p. Qed.

(** [validate] rejects the malformed lists, with a kind they exhibit. *)
Lemma validate_malformed (ps : list AxParameter) :
  malformed ps → ∃ k, validate ps = inl k ∧ exhibits k ps.
Proof.
  intros [k0 Hk0]. unfold validate. case_bool_decide as Hdup.
  - destruct (validate_each ps) as [k|space] eqn:Hv.
    + exists k. split; [done|].
      destruct (validate_each_inl ps k Hv) as (p & Hin & Hd).
      destruct k; simpl; eauto; by destruct (defect_not_duplicate p).
    + exfalso. destruct k0; unfold exhibits in Hk0; [done|..];
        destruct Hk0 as (p & Hin & Hd);
        exact (validate_each_inr ps space _ p Hv Hin Hd).
  - exists DuplicateParameter. by split.
Qed.

Section Validation.
Variable strategy : ExperimentSpec → list Trial → Proposal.
Variable str : EngineError → string.

Local Abbreviation RE := (Reference.engine strategy str).

(** C3: on the reference engine, when the parameters of the spec
    (those of the three variants, which are the ones create_experiment
    forwards) repeat a name, or hold a range whose bounds are not
    lower < upper, a choice without values or a fixed parameter without
    value, the call fails: it is the 500 whose detail is the text of the
    engine's ValidationError of a kind that the spec exhibits, and the
    registry and the storage are as they were. *)
Theorem malformed_spec_rejected (st : @State RE) (request : ExperimentRequest) :
  malformed (convert_parameters (req_parameters request)) →
  ∃ k,
    exhibits k (convert_parameters (req_parameters request))
    ∧ create_experiment request st
      = (inl (internal_error (str (Validation k))), st).
Proof.
  intros (k & Hv & Hk)%validate_malformed.
  exists k. split; [done|].
  unfold create_experiment. simpl. by rewrite Hv.
Qed.

End Validation.

(** ** Well-formed experiments stay well formed *)

Lemma update_trial_indices (index : Z) (f : Trial → Trial) (l : list Trial) :
  (∀ t, trial_index (f t) = trial_index t) →
  map trial_index (update_trial index f l) = map trial_index l.
Proof.
  intros Hf. induction l as [|t l IH]; simpl; [done|].
  destruct (Z.eqb (trial_index t) index); simpl; [by rewrite Hf|by rewrite IH].
Qed.

Lemma elem_of_update_trial (index : Z) (f : Trial → Trial) (l : list Trial)
    (tr : Trial) :
  tr ∈ update_trial index f l → tr ∈ l ∨ ∃ t, t ∈ l ∧ tr = f t.
Proof.
  induction l as [|t l IH]; simpl; [by left|].
  destruct (Z.eqb (trial_index t) index).
  - intros [->|Hin]%elem_of_cons.
    + right. exists t. split; [left|done].
    + left. by right.
  - intros [->|Hin]%elem_of_cons; [left; left|].
    destruct (IH Hin) as [H|(t' & H & ->)]; [left; by right|].
    right. exists t'. split; [by right|done].
Qed.

Lemma Forall_index_bound (l : list Trial) (n m : Z) :
  (n ≤ m)%Z →
  Forall (λ tr, (trial_index tr < n)%Z) l →
  Forall (λ tr, (trial_index tr < m)%Z) l.
Proof.
  intros Hle H. eapply Forall_impl; [exact H|]. intros tr Htr. simpl in Htr. lia.
Qed.

Lemma create_wf (str : EngineError → string) (client : option Experiment)
    (name : string) (parameters : list AxParameter)
    (objectives : list (string * ObjectiveProperties)) (e : Experiment) :
  create str client name parameters objectives = inr (Some e) →
  experiment_wf e.
Proof.
  unfold create. destruct client; [done|].
  destruct objectives as [|[objective properties] [|]]; try done.
  destruct validate; [done|]. intros [= <-]. split; [|split]; simpl.
  - intros tr Htr. by apply elem_of_nil in Htr.
  - constructor.
  - constructor.
Qed.

Lemma record_proposed_wf (e : Experiment) (parameters : TParameterization)
    (l : list Trial) :
  experiment_wf e →
  record_proposed (next_index e) parameters (ledger e) = inr l →
  experiment_wf {| spec := spec e; ledger := l;
                   next_index := next_index e + 1 |}.
Proof.
  intros (Hwf & Hdup & Hlt). unfold record_proposed.
  destruct find_trial eqn:Hfind; [done|]. intros [= <-].
  split; [|split]; simpl.
  - intros tr [Htr|Htr]%elem_of_app; [by apply Hwf|].
    apply list_elem_of_singleton in Htr as ->. simpl. split; [done|].
    by intros [? ?].
  - rewrite map_app. simpl. apply NoDup_app. split; [done|].
    split; [|apply NoDup_singleton].
    intros i Hi Hi'. apply list_elem_of_singleton in Hi' as ->.
    apply list_elem_of_fmap in Hi as (tr & Hidx & Htr).
    rewrite Forall_forall in Hlt. specialize (Hlt tr Htr). lia.
  - apply Forall_app. split.
    + apply Forall_index_bound with (next_index e); [lia|done].
    + constructor; [simpl; lia|constructor].
Qed.

Lemma record_completed_wf (e : Experiment) (index : Z) (score : float)
    (l : list Trial) :
  experiment_wf e →
  record_completed index score (ledger e) = inr l →
  experiment_wf {| spec := spec e; ledger := l; next_index := next_index e |}.
Proof.
  intros (Hwf & Hdup & Hlt). unfold record_completed.
  destruct completable as [err|t]; [done|]. intros [= <-].
  split; [|split]; simpl.
  - intros tr [Htr|(t0 & Ht0 & ->)]%elem_of_update_trial; [by apply Hwf|].
    simpl. split; [by eexists|done].
  - by rewrite update_trial_indices.
  - apply Forall_forall.
    intros tr [Htr|(t0 & Ht0 & ->)]%elem_of_update_trial;
      rewrite Forall_forall in Hlt; [by apply Hlt|]. simpl. by apply Hlt.
Qed.

Lemma load_from_inr (str : EngineError → string) (filepath : string)
    (w : FileSystem) (e : Experiment) :
  load_from str filepath w = inr (Some e) →
  ∃ bytes, files w !! filepath = Some bytes ∧ load bytes = inr e.
Proof.
  unfold load_from. destruct (files w !! filepath) as [bytes|]; [|done].
  destruct (load bytes) as [err|e0] eqn:He0; [done|].
  intros [= <-]. by exists bytes.
Qed.

Section Invariant.
Variable strategy : ExperimentSpec → list Trial → Proposal.
Variable str : EngineError → string.

Local Abbreviation RE := (Reference.engine strategy str).

Implicit Types (st : @State RE) (e : Experiment).

Lemma suggest_wf e e' :
  experiment_wf e → (suggest strategy str (Some e)).2 = Some e' →
  experiment_wf e'.
Proof.
  intros Hwf. simpl.
  destruct (strategy (spec e) (ledger e)); simpl; try by intros [= <-].
  destruct record_proposed as [err|l] eqn:Hl; simpl; [by intros [= <-]|].
  intros [= <-]. by eapply record_proposed_wf.
Qed.

Lemma observe_wf e e' (index : Z) (outcome : MetricDict) :
  experiment_wf e → (observe str (Some e) index outcome).2 = Some e' →
  experiment_wf e'.
Proof.
  intros Hwf. simpl.
  destruct completable; simpl; [by intros [= <-]|].
  destruct dict_get; simpl; [|by intros [= <-]].
  destruct record_completed as [err|l] eqn:Hl; simpl; [by intros [= <-]|].
  intros [= <-]. by eapply record_completed_wf.
Qed.

(** No request leads out of the well-formed states. *)
Lemma handle_wf st (rq : Request) : state_wf st → state_wf (handle rq st).2.
Proof.
  intros [Hreg Hsto].
  destruct rq as [request|i|i index completion|i|i|i filepath|filepath];
    simpl.
  - split.
    + intros j e [H|(client & _ & H)]%(@create_experiment_entry RE);
        [by eapply Hreg|exact (create_wf str _ _ _ _ _ H)].
    + by rewrite (@create_experiment_storage RE).
  - split.
    + intros j e'. rewrite (@get_next_trial_entry RE).
      case_decide as Hj; [subst j|by apply Hreg].
      destruct (experiments st !! i) as [[e|]|] eqn:Hi; simpl.
      * intros [= He']. eapply suggest_wf; [by eapply Hreg|done].
      * done.
      * done.
    + by rewrite (@get_next_trial_storage RE).
  - split.
    + intros j e'. rewrite (@complete_trial_entry RE).
      case_decide as Hj; [subst j|by apply Hreg].
      destruct (experiments st !! i) as [[e|]|] eqn:Hi; simpl.
      * intros [= He']. eapply observe_wf; [by eapply Hreg|done].
      * done.
      * done.
    + by rewrite (@complete_trial_storage RE).
  - by rewrite (@get_best_state RE).
  - by rewrite (@get_trials_state RE).
  - split.
    + by rewrite (@save_checkpoint_experiments RE).
    + rewrite (@save_checkpoint_storage RE).
      destruct (experiments st !! i) as [[e|]|] eqn:Hi; simpl; try done.
      case_decide; simpl; [done|].
      intros fp bytes e'. rewrite lookup_insert. case_decide; [|by apply Hsto].
      intros [= <-]. rewrite load_save. intros [= <-]. by eapply Hreg.
  - split.
    + intros j e [H|H]%(@load_checkpoint_entry RE); [by eapply Hreg|].
      apply (load_from_inr str) in H as (bytes & Hf & He). by eapply Hsto.
    + by rewrite (@load_checkpoint_storage RE).
Qed.

Lemma run_wf st (rqs : list Request) : state_wf st → state_wf (run rqs st).2.
Proof.
  revert st. induction rqs as [|rq rqs IH]; intros st Hwf; [done|].
  simpl. by apply IH, handle_wf.
Qed.

(** Starting from no experiment and no file, the service only ever
    holds well-formed experiments. *)
Lemma reachable_wf (rqs : list Request) (w : FileSystem) :
  files w = ∅ →
  state_wf (run rqs (@Build_State RE ∅ w)).2.
Proof.
  intros Hw. apply run_wf. split.
  - intros j e H. by cbn in H.
  - intros fp bytes e H. cbn in H. rewrite Hw in H. by cbn in H.
Qed.

End Invariant.

(** ** The theorems at the scenario of section 8 *)

Lemma no_replacement_forallb `{E : Engine} (experiment_id : string)
    (trace : list (Request * (HTTPException + Response))) :
  forallb (λ ev, negb (replaces experiment_id ev)) trace = true →
  Forall (λ ev, replaces experiment_id ev = false) trace.
Proof.
  induction trace as [|ev trace IH]; simpl; [constructor|].
  intros [Hev Htrace]%andb_true_iff. constructor; [|by apply IH].
  by apply negb_true_iff.
Qed.

(** The states of the instance are the ones the service reaches. *)
Lemma scenario_reached :
  experiments (run Demo.scenario_requests Demo.empty).2
  = experiments Demo.scenario.
Proof. vm_compute. reflexivity. Qed.

Lemma loss_state_reached :
  experiments (run Demo.loss_requests Demo.empty).2
  = experiments Demo.loss_state.
Proof. vm_compute. reflexivity. Qed.

Lemma saved_reached :
  let st := (run [SaveCheckpoint "demo" "demo.json"; GetNextTrial "demo"]
                 Demo.scenario).2 in
  experiments st = experiments Demo.saved ∧ storage st = storage Demo.saved.
Proof. vm_compute. split; reflexivity. Qed.

Lemma two_reached :
  experiments
    (run [CreateExperiment other_request; GetNextTrial "other"]
         Demo.scenario).2
  = experiments Demo.two.
Proof. vm_compute. reflexivity. Qed.

(** A score of NaN is a score like any other to complete_trial. *)
Lemma nan_reached :
  experiments
    (run [CreateExperiment (Demo.request "score" false [Demo.x]);
          GetNextTrial "demo"; CompleteTrial "demo" 0 (Demo.score NaN);
          GetNextTrial "demo";
          CompleteTrial "demo" 1 (Demo.score (Demo.number 5))]
         Demo.empty).2
  = experiments (Demo.holding Demo.nan_experiment).
Proof. vm_compute. reflexivity. Qed.

Lemma scenario_entry :
  experiments Demo.scenario !! "demo" = Some (Some Demo.scenario_experiment).
Proof. vm_compute. reflexivity. Defined.


(** C4, at the scenario and an identifier it does not have. *)
Lemma unknown_experiment_not_found_witness :
  experiments Demo.scenario !! "other" = None
  ∧ get_next_trial "other" Demo.scenario
    = (inl ExperimentNotFound, Demo.scenario)
  ∧ complete_trial "other" 0 (Demo.score (Demo.number 1)) Demo.scenario
    = (inl ExperimentNotFound, Demo.scenario)
  ∧ get_best "other" Demo.scenario = (inl ExperimentNotFound, Demo.scenario)
  ∧ get_trials "other" Demo.scenario
    = (inl ExperimentNotFound, Demo.scenario)
  ∧ save_checkpoint "other" "other.json" Demo.scenario
    = (inl ExperimentNotFound, Demo.scenario).
Proof.
  assert (H : experiments Demo.scenario !! "other" = None)
    by (vm_compute; reflexivity).
  split; [exact H|].
  destruct (@unknown_experiment_not_found Demo.engine Demo.scenario "other" H)
    as (Hnext & Hcomplete & Hbest & Htrials & Hsave).
  split; [exact Hnext|]. split; [apply Hcomplete|].
  split; [exact Hbest|]. split; [exact Htrials|apply Hsave].
Defined.

(** The file "demo.json" of the saved state holds the scenario. *)
Lemma saved_file :
  ax_load_from_json_file "demo.json" (storage Demo.saved)
  = inr (Some Demo.scenario_experiment).
Proof.
  apply (load_from_bytes Demo.message "demo.json" (storage Demo.saved)
           (save Demo.scenario_experiment)); [reflexivity|apply load_save].
Defined.

(** C9, at the checkpoint of the scenario, loaded over the advanced
    experiment. *)
Lemma load_checkpoint_replaces_entry_witness :
  is_Some (experiments Demo.saved !! "demo")
  ∧ ∃ st',
      load_checkpoint "demo.json" Demo.saved
      = (inr {| loaded_status := "loaded"; loaded_experiment_id := "demo" |},
         st')
      ∧ experiments st' !! "demo" = Some (Some Demo.scenario_experiment).
Proof.
  assert (H : is_Some (experiments Demo.saved !! "demo"))
    by (vm_compute; eexists; reflexivity).
  split; [exact H|].
  destruct (@load_checkpoint_replaces_entry Demo.engine Demo.saved
              "demo.json" "demo" (Some Demo.scenario_experiment) H)
    as (st' & Hload & Hentry & _).
  - exact saved_file.
  - reflexivity.
  - exists st'. split; [exact Hload|exact Hentry].
Defined.

(** C10, at a request with one range parameter and one of the unknown
    type 'integer': the creation succeeds and reports one parameter. *)
Lemma unrecognized_parameters_omitted_witness :
  ∃ r st',
    create_experiment (Demo.request "score" false [Demo.x; Demo.x_int])
      Demo.empty = (inr r, st')
    ∧ created_parameters r = 1.
Proof.
  assert (Hcreate :
    @ax_create_experiment Demo.engine None "demo"
      (convert_parameters [Demo.x; Demo.x_int])
      [("score", {| op_minimize := false |})] = inr (Some Demo.fresh))
    by (vm_compute; reflexivity).
  pose proof (@create_experiment_accepted Demo.engine
                (Demo.request "score" false [Demo.x; Demo.x_int])
                Demo.empty None (Some Demo.fresh) eq_refl Hcreate) as H.
  eexists _, _. split; [exact H|].
  exact (proj2 (@unrecognized_parameters_omitted Demo.engine
                  (Demo.request "score" false [Demo.x; Demo.x_int])
                  Demo.empty) _ _ H).
Defined.

(** C1, at its failing input: "demo" is in the registry with two
    completed trials, and create_experiment for the name "demo" answers
    "created" with "demo" as the identifier and puts a new client in the
    place of the registered one, whose trials are gone. *)
Lemma create_experiment_duplicate_accepted :
  let r := create_experiment (Demo.request "score" false [Demo.x])
             Demo.scenario in
  experiments Demo.scenario !! "demo" = Some (Some Demo.scenario_experiment)
  ∧ r.1 = inr {| created_experiment_id := "demo";
                 created_status := "created";
                 created_parameters := 1 |}
  ∧ experiments r.2 !! "demo" = Some (Some Demo.fresh)
  ∧ ledger Demo.fresh = []
  ∧ experiments r.2 !! "demo" ≠ experiments Demo.scenario !! "demo".
Proof.
  vm_compute. split; [reflexivity|]. split; [reflexivity|].
  split; [reflexivity|]. split; [reflexivity|discriminate].
Qed.

(** C3, at a request whose second range has the bounds [3, 1], and at
    one with two ranges called "x". *)
Lemma malformed_spec_rejected_witness :
  let inverted := Demo.request "score" false [Demo.x; Demo.y_inverted] in
  let repeated := Demo.request "score" false [Demo.x; Demo.x] in
  (malformed (convert_parameters (req_parameters inverted))
   ∧ ∃ k,
       exhibits k (convert_parameters (req_parameters inverted))
       ∧ create_experiment inverted Demo.scenario
         = (inl (internal_error (Demo.message (Validation k))),
            Demo.scenario))
  ∧ (malformed (convert_parameters (req_parameters repeated))
     ∧ ∃ k,
         exhibits k (convert_parameters (req_parameters repeated))
         ∧ create_experiment repeated Demo.scenario
           = (inl (internal_error (Demo.message (Validation k))),
              Demo.scenario)).
Proof.
  cbv zeta.
  assert (Hinverted :
    malformed
      (convert_parameters
         (req_parameters
            (Demo.request "score" false [Demo.x; Demo.y_inverted])))).
  { exists InvalidBounds,
      (AxRange "y" (Some [Demo.number 3; Demo.number 1]) false).
    split; [right; left|]. by intros lower upper [= <- <-]. }
  assert (Hrepeated :
    malformed
      (convert_parameters
         (req_parameters (Demo.request "score" false [Demo.x; Demo.x])))).
  { exists DuplicateParameter. intros [Hx _]%NoDup_cons. apply Hx. left. }
  split; (split; [done|]).
  - exact (malformed_spec_rejected Demo.strategy Demo.message Demo.scenario
             _ Hinverted).
  - exact (malformed_spec_rejected Demo.strategy Demo.message Demo.scenario
             _ Hrepeated).
Defined.

(** C2, at an experiment created with objective "loss" and trial 0
    issued: complete_trial hands the engine the outcome under "score",
    which has no value for "loss"; the engine cannot record it, the call
    is a 500 and trial 0 stays Proposed without outcome.  Under "loss"
    the same outcome would have been recorded. *)
Lemma complete_trial_ignores_objective_name :
  let completion := Demo.score (Demo.number 5) in
  let r := complete_trial "demo" 0 completion Demo.loss_state in
  experiments Demo.loss_state !! "demo" = Some (Some Demo.loss_experiment)
  ∧ spec_objective_name (spec Demo.loss_experiment) = "loss"
  ∧ r = (let o := observe Demo.message (Some Demo.loss_experiment) 0
                    [("score", completion_score completion)] in
         (match o.1 with
          | inl e => inl (internal_error e)
          | inr _ => inr {| completed_status := "completed";
                            completed_trial_index := 0 |}
          end, @set_experiment Demo.engine "demo" o.2 Demo.loss_state))
  ∧ r.1 = inl (internal_error (Demo.message EngineInternalError))
  ∧ experiments r.2 !! "demo" = Some (Some Demo.loss_experiment)
  ∧ (observe Demo.message (Some Demo.loss_experiment) 0
       [("loss", completion_score completion)]).1 = inr tt.
Proof.
  cbv zeta.
  assert (Hentry : experiments Demo.loss_state !! "demo"
                   = Some (Some Demo.loss_experiment))
    by (vm_compute; reflexivity).
  split; [exact Hentry|]. split; [reflexivity|].
  split; [exact (@complete_trial_raw_data Demo.engine "demo" 0
                   (Demo.score (Demo.number 5)) Demo.loss_state
                   (Some Demo.loss_experiment) Hentry)|].
  vm_compute. repeat split.
Qed.







(** The file "demo.json" can be written at the scenario. *)
Lemma scenario_saved :
  save_checkpoint "demo" "demo.json" Demo.scenario
  = (inr {| saved_status := "saved"; saved_filepath := "demo.json" |},
     @Build_State Demo.engine (experiments Demo.scenario)
       {| files := <["demo.json" := save Demo.scenario_experiment]>
                     (files (storage Demo.scenario));
          unwritable := unwritable (storage Demo.scenario) |}).
Proof.
  rewrite (save_checkpoint_registered Demo.strategy Demo.message
             Demo.scenario "demo" "demo.json" Demo.scenario_experiment
             scenario_entry).
  reflexivity.
Defined.

(** A destination that cannot be written: save_checkpoint is the 500
    with the text of the engine's IOError, and nothing changes. *)
Lemma save_checkpoint_unwritable :
  save_checkpoint "demo" "/readonly/demo.json" Demo.scenario
  = (inl (internal_error (Demo.message IOError)), Demo.scenario).
Proof.
  rewrite (save_checkpoint_registered Demo.strategy Demo.message
             Demo.scenario "demo" "/readonly/demo.json"
             Demo.scenario_experiment scenario_entry).
  reflexivity.
Qed.

(** C7, at the scenario and the file "demo.json": the loaded experiment
    lists the same trials, and its next trial is 2, which is neither 0
    nor 1. *)
Lemma checkpoint_round_trip_witness :
  ∃ st1 st2 r st3,
    save_checkpoint "demo" "demo.json" Demo.scenario
    = (inr {| saved_status := "saved"; saved_filepath := "demo.json" |}, st1)
    ∧ load_checkpoint "demo.json" st1
      = (inr {| loaded_status := "loaded"; loaded_experiment_id := "demo" |},
         st2)
    ∧ (get_trials "demo" st2).1 = (get_trials "demo" Demo.scenario).1
    ∧ get_next_trial "demo" st2 = (inr r, st3)
    ∧ next_trial_index r = 2%Z
    ∧ ∀ tr, tr ∈ ledger Demo.scenario_experiment →
            trial_index tr ≠ next_trial_index r.
Proof.
  destruct (checkpoint_round_trip Demo.strategy Demo.message Demo.scenario
              "demo" "demo.json" Demo.scenario_experiment _ _
              scenario_entry scenario_saved)
    as (_ & st2 & Hload & Hentry & _ & Htrials & _ & Hfree).
  pose proof (@get_next_trial_found Demo.engine "demo" st2
                (Some Demo.scenario_experiment) Hentry) as Hnext.
  eexists _, st2, _, _.
  split; [exact scenario_saved|]. split; [exact Hload|].
  split; [exact Htrials|].
  split; [exact Hnext|]. split; [reflexivity|].
  exact (Hfree _ _ Hnext).
Defined.

(** C6 (amended), at the scenario followed by two more suggestions with
    a completion and the creation of another experiment in between. *)
Lemma trial_indices_strictly_increasing_witness :
  issued "demo" (run Demo.more_requests Demo.scenario).1 = [2; 3]%Z
  ∧ StronglySorted Z.lt
      (issued "demo" (run Demo.more_requests Demo.scenario).1).
Proof.
  split; [vm_compute; reflexivity|].
  apply (trial_indices_strictly_increasing Demo.strategy Demo.message
           Demo.scenario).
  apply no_replacement_forallb. vm_compute. reflexivity.
Defined.

(** C6 as stated fails: load_checkpoint puts the experiment as it was
    saved under its name (C9), so the index issued after the save is
    issued again after the load: the scenario is saved, trial 2 is
    issued, the file is loaded, and trial 2 is issued a second time. *)
Lemma reload_reissues_index :
  let trace :=
    (run [SaveCheckpoint "demo" "demo.json"; GetNextTrial "demo";
          LoadCheckpoint "demo.json"; GetNextTrial "demo"]
         Demo.scenario).1 in
  issued "demo" trace = [2; 2]%Z
  ∧ ¬ NoDup (issued "demo" trace)
  ∧ ¬ StronglySorted Z.lt (issued "demo" trace).
Proof.
  cbv zeta.
  assert (H : issued "demo"
                (run [SaveCheckpoint "demo" "demo.json"; GetNextTrial "demo";
                      LoadCheckpoint "demo.json"; GetNextTrial "demo"]
                     Demo.scenario).1 = [2; 2]%Z)
    by (vm_compute; reflexivity).
  rewrite H. split; [done|]. split.
  - intros [Hin _]%NoDup_cons. apply Hin. left.
  - intros Hs. apply StronglySorted_inv in Hs as [_ Hall].
    apply Forall_inv in Hall. lia.
Qed.

(** ** Further properties of the handlers, for every engine *)

#[local] Set Warnings "-clear-no-such-hyp".

Section RegistryProperties.
Context `{E : Engine}.

Implicit Types (st : State) (rq : Request).

Lemma dom_set_experiment_present st (i : string) (client client' : AxClient) :
  experiments st !! i = Some client →
  dom (experiments (set_experiment i client' st)) =@{gset string}
  dom (experiments st).
Proof.
  intros H. simpl. rewrite dom_insert_L.
  assert (i ∈ dom (experiments st)) by (apply elem_of_dom; eauto).
  set_solver.
Qed.

Lemma answer_fst {A} (wrap : A → Response) (r : Result A) :
  (answer wrap r).1
  = match r.1 with inl err => inl err | inr a => inr (wrap a) end.
Proof. reflexivity. Qed.

(** One request: the keys afterwards are the keys before and what the
    request registered. *)
Lemma handle_dom st rq :
  dom (experiments (handle rq st).2) =@{gset string}
  dom (experiments st) ∪ list_to_set (registered [(rq, (handle rq st).1)]).
Proof.
  destruct rq as [request|i|i index completion|i|i|i filepath|filepath];
    simpl.
  - unfold create_experiment. destruct AxClient_new as [e|client]; simpl.
    { set_solver. }
    destruct ax_create_experiment as [e|client']; simpl.
    { set_solver. }
    rewrite dom_insert_L. set_solver.
  - unfold get_next_trial.
    destruct (experiments st !! i) as [client|] eqn:Hi; simpl.
    + destruct ax_get_next_trial as [[e|[??]] c]; simpl;
        rewrite dom_insert_L;
        assert (i ∈ dom (experiments st)) by (apply elem_of_dom; eauto);
        set_solver.
    + set_solver.
  - unfold complete_trial.
    destruct (experiments st !! i) as [client|] eqn:Hi; simpl.
    + destruct ax_complete_trial as [[e|[]] c]; simpl;
        rewrite dom_insert_L;
        assert (i ∈ dom (experiments st)) by (apply elem_of_dom; eauto);
        set_solver.
    + set_solver.
  - rewrite get_best_state. destruct (get_best i st).1; set_solver.
  - rewrite get_trials_state. destruct (get_trials i st).1; set_solver.
  - rewrite save_checkpoint_experiments.
    destruct (save_checkpoint i filepath st).1; set_solver.
  - unfold load_checkpoint.
    destruct ax_load_from_json_file as [e|client]; simpl.
    { set_solver. }
    destruct ax_experiment_name as [e|i]; simpl.
    { set_solver. }
    rewrite dom_insert_L. set_solver.
Qed.

Lemma registered_cons (ev : Request * (HTTPException + Response))
    (trace : list (Request * (HTTPException + Response))) :
  registered (ev :: trace) = (registered [ev] ++ registered trace)%list.
Proof.
  unfold registered. simpl.
  by destruct ev as [[] [|[]]].
Qed.

(** A key stays a key. *)
Lemma run_keeps_key st (rqs : list Request) (i : string) :
  is_Some (experiments st !! i) → is_Some (experiments (run rqs st).2 !! i).
Proof.
  revert st. induction rqs as [|rq rqs IH]; intros st Hi; [done|].
  change (run (rq :: rqs) st).2 with (run rqs (handle rq st).2).2.
  apply IH, elem_of_dom. rewrite handle_dom. apply elem_of_union_l.
  by apply elem_of_dom.
Qed.

(** X1: along any sequence of requests the keys of [experiments] are the
    keys at the start together with the identifiers that the successful
    create_experiment and load_checkpoint calls answered with: no other
    handler adds a key, and none removes one. *)
Theorem registry_keys_along_run st (rqs : list Request) :
  dom (experiments (run rqs st).2) =@{gset string}
  dom (experiments st) ∪ list_to_set (registered (run rqs st).1).
Proof.
  revert st. induction rqs as [|rq rqs IH]; intros st.
  - simpl. set_solver.
  - rewrite run_cons, registered_cons, list_to_set_app_L.
    change (run (rq :: rqs) st).2 with (run rqs (handle rq st).2).2.
    rewrite IH, handle_dom. set_solver.
Qed.

(** X2: a successful create_experiment raises the count that GET /
    reports by one when the name was new and leaves it as it was when the
    name was already a key; a failed one leaves it as it was. *)
Theorem root_counts_created_experiment st (request : ExperimentRequest) :
  let st' := (create_experiment request st).2 in
  (∀ r, (create_experiment request st).1 = inr r →
        root_active_experiments (root st')
        = match experiments st !! req_name request with
          | Some _ => root_active_experiments (root st)
          | None => S (root_active_experiments (root st))
          end)
  ∧ (∀ err, (create_experiment request st).1 = inl err →
            root_active_experiments (root st')
            = root_active_experiments (root st)).
Proof.
  unfold create_experiment. destruct AxClient_new as [e|client]; simpl.
  { split; [done|]. done. }
  destruct ax_create_experiment as [e|client']; simpl.
  { split; done. }
  split; [|done]. intros r _. rewrite map_size_insert.
  by destruct (experiments st !! req_name request).
Qed.

(** On a key, what the five routes fail with is a 500. *)
Lemma found_failure st rq (i : string) (err : HTTPException) :
  is_Some (experiments st !! i) → request_id rq = Some i →
  (handle rq st).1 = inl err → status_code err = 500%Z.
Proof.
  intros [client Hi].
  destruct rq as [request|k|k index completion|k|k|k filepath|filepath];
    simpl; try done; intros [= ->].
  - rewrite (get_next_trial_found _ _ _ Hi). simpl.
    destruct ax_get_next_trial as [[e|[??]] c]; simpl; [|done].
    by intros [= <-].
  - rewrite (complete_trial_raw_data _ _ _ _ _ Hi). simpl.
    destruct ax_complete_trial as [[e|[]] c]; simpl; [|done].
    by intros [= <-].
  - rewrite (get_best_found _ _ _ Hi). simpl.
    destruct ax_get_best_parameters as [e|[[p [[means cov]|]]|]]; simpl;
      try destruct (map snd means); simpl; try done; by intros [= <-].
  - rewrite (get_trials_found _ _ _ Hi). simpl.
    destruct ax_get_trials_data_frame as [e|trials]; simpl; [|done].
    by intros [= <-].
  - rewrite (save_checkpoint_found _ _ _ _ Hi). simpl.
    destruct ax_save_to_json_file as [[e|[]] w]; simpl; [|done].
    by intros [= <-].
Qed.

(** X4: a request that fails fails with a 500 or with the 404.  For the
    five routes with an [experiment_id] the failure is the 404 exactly
    when the identifier is not a key of [experiments]; create_experiment
    and load_checkpoint never answer 404, and when they fail the state is
    as it was. *)
Theorem failure_status st rq (err : HTTPException) :
  (handle rq st).1 = inl err →
  match request_id rq with
  | Some i =>
    (status_code err = 404%Z ↔ experiments st !! i = None)
    ∧ (status_code err = 404%Z → err = ExperimentNotFound)
    ∧ (status_code err = 404%Z ∨ status_code err = 500%Z)
  | None => status_code err = 500%Z ∧ (handle rq st).2 = st
  end.
Proof.
  destruct rq as [request|i|i index completion|i|i|i filepath|filepath];
    simpl.
  - destruct (create_experiment request st) as [[e|r] st'] eqn:Hc;
      simpl; [|done].
    intros [= <-]. by apply create_experiment_failure in Hc.
  - unfold get_next_trial.
    destruct (experiments st !! i) as [client|]; simpl.
    + destruct ax_get_next_trial as [[e|[??]] c]; simpl; [|done].
      intros [= <-]. simpl. repeat split; try done; auto.
    + intros [= <-]. simpl. repeat split; auto.
  - unfold complete_trial.
    destruct (experiments st !! i) as [client|]; simpl.
    + destruct ax_complete_trial as [[e|[]] c]; simpl; [|done].
      intros [= <-]. simpl. repeat split; try done; auto.
    + intros [= <-]. simpl. repeat split; auto.
  - destruct (experiments st !! i) as [client|] eqn:Hi.
    + rewrite (get_best_found _ _ _ Hi). simpl.
      destruct ax_get_best_parameters as [e|[[p [[means cov]|]]|]]; simpl;
        try destruct (map snd means); simpl; try done;
        intros [= <-]; simpl; repeat split; try done; auto.
    + unfold get_best. rewrite Hi. simpl.
      intros [= <-]. simpl. repeat split; auto.
  - destruct (experiments st !! i) as [client|] eqn:Hi.
    + rewrite (get_trials_found _ _ _ Hi). simpl.
      destruct ax_get_trials_data_frame as [e|trials]; simpl; [|done].
      intros [= <-]. simpl. repeat split; try done; auto.
    + unfold get_trials. rewrite Hi. simpl.
      intros [= <-]. simpl. repeat split; auto.
  - destruct (experiments st !! i) as [client|] eqn:Hi.
    + rewrite (save_checkpoint_found _ _ _ _ Hi). simpl.
      destruct ax_save_to_json_file as [[e|[]] w]; simpl; [|done].
      intros [= <-]. simpl. repeat split; try done; auto.
    + unfold save_checkpoint. rewrite Hi. simpl.
      intros [= <-]. simpl. repeat split; auto.
  - unfold load_checkpoint.
    destruct ax_load_from_json_file as [e|client]; simpl.
    { by intros [= <-]. }
    destruct ax_experiment_name as [e|i]; simpl; [|done].
    by intros [= <-].
Qed.

(** X5: a request changes no registry entry but the one it names: the
    name of the request for create_experiment, the [experiment_id] of the
    route for the five routes that have one, the identifier it answers
    with for a successful load_checkpoint. *)
Theorem other_entries_untouched st rq (j : string) :
  touched (rq, (handle rq st).1) ≠ Some j →
  experiments (handle rq st).2 !! j = experiments st !! j.
Proof.
  destruct rq as [request|i|i index completion|i|i|i filepath|filepath];
    simpl; intros Hj.
  - apply create_experiment_frame. congruence.
  - rewrite get_next_trial_entry. case_decide; congruence.
  - rewrite complete_trial_entry. case_decide; congruence.
  - by rewrite get_best_state.
  - by rewrite get_trials_state.
  - by rewrite save_checkpoint_experiments.
  - apply load_checkpoint_frame. intros r Hr. rewrite Hr in Hj. congruence.
Qed.

(** X6: an identifier that is a key of [experiments] stays one along any
    sequence of requests, so none of the five routes ever answers 404 for
    it afterwards: what they can fail with is a 500. *)
Theorem experiment_stays_found st (rqs : list Request) (i : string) :
  is_Some (experiments st !! i) →
  is_Some (experiments (run rqs st).2 !! i)
  ∧ ∀ rq err,
      request_id rq = Some i →
      (handle rq (run rqs st).2).1 = inl err →
      status_code err = 500%Z.
Proof.
  intros Hi.
  pose proof (run_keeps_key st rqs i Hi) as Hi'.
  split; [done|]. intros rq err Hrq Herr.
  by apply (found_failure (run rqs st).2 rq i).
Qed.

(** X7: get_best succeeds exactly when the identifier is a key, the
    engine answers with parameters and a means dictionary that is not
    empty; the score is then the first value of that dictionary, whatever
    its key, and the parameters are the engine's. *)
Theorem get_best_success st (i : string) (r : BestResponse) :
  (get_best i st).1 = inr r
  ↔ ∃ client means covariances,
      experiments st !! i = Some client
      ∧ ax_get_best_parameters client
        = inr (Some (best_parameters r, Some (means, covariances)))
      ∧ head (map snd means) = Some (best_score r).
Proof.
  split.
  - destruct (experiments st !! i) as [client|] eqn:Hi.
    + rewrite (get_best_found _ _ _ Hi). simpl.
      destruct ax_get_best_parameters as [e|[[p [[means cov]|]]|]] eqn:Hb;
        simpl; try done.
      destruct (map snd means) as [|score scores] eqn:Hm; simpl; [done|].
      intros [= <-]. exists client, means, cov. simpl. by rewrite Hm.
    + unfold get_best. by rewrite Hi.
  - intros (client & means & cov & Hi & Hb & Hm).
    rewrite (get_best_found _ _ _ Hi), Hb. simpl.
    destruct (map snd means) as [|score scores]; simpl in *; [done|].
    injection Hm as ->. by destruct r.
Qed.

(** X8: the parameters that create_experiment forwards to the engine are
    the supplied parameters of a recognized type, in the order supplied,
    each under its own name and type; the conversion of a concatenation
    is the concatenation of the conversions. *)
Theorem convert_parameters_order (ps1 ps2 : list ParameterModel) :
  convert_parameters (ps1 ++ ps2)
  = (convert_parameters ps1 ++ convert_parameters ps2)%list
  ∧ map (λ p, (ax_name p, ax_type p)) (convert_parameters ps1)
    = map (λ p, (param_name p, param_type p))
          (List.filter recognized ps1).
Proof.
  split.
  - by rewrite !convert_parameters_flat_map, flat_map_app.
  - rewrite convert_parameters_flat_map.
    induction ps1 as [|p ps IH]; [done|]. simpl.
    rewrite map_app, IH. unfold recognized, to_ax.
    destruct (String.eqb (param_type p) "range") eqn:H1; simpl.
    { apply String.eqb_eq in H1. by rewrite H1. }
    destruct (String.eqb (param_type p) "choice") eqn:H2; simpl.
    { apply String.eqb_eq in H2. by rewrite H2. }
    destruct (String.eqb (param_type p) "fixed") eqn:H3; simpl; [|done].
    apply String.eqb_eq in H3. by rewrite H3.
Qed.

End RegistryProperties.

(** ** The static server: paths and headers *)

Lemma string_length_app (a s : string) :
  String.length (a ++ s) = (String.length a + String.length s)%nat.
Proof. induction a as [|c a IH]; simpl; [done|]. by rewrite IH. Qed.

Lemma substring_skip (a s : string) (n m : nat) :
  String.substring (String.length a + n) m (a ++ s) = String.substring n m s.
Proof. induction a as [|c a IH]; simpl; [done|]. apply IH. Qed.

Lemma substring_all (s : string) :
  String.substring 0 (String.length s) s = s.
Proof. induction s as [|c s IH]; simpl; [done|]. by rewrite IH. Qed.

Lemma substring_split (s : string) (n : nat) :
  (n ≤ String.length s)%nat →
  s = String.substring 0 n s
      ++ String.substring n (String.length s - n) s.
Proof.
  revert n. induction s as [|c s IH]; intros n Hn; simpl in *.
  - assert (n = 0) as -> by lia. done.
  - destruct n as [|n]; simpl.
    + by rewrite substring_all.
    + change (String c s
              = String c (String.substring 0 n s
                          ++ String.substring n (String.length s - n) s)).
      f_equal. apply IH. lia.
Qed.


Lemma endswith_app (a s suffix : string) :
  (String.length suffix ≤ String.length s)%nat →
  Server.endswith (a ++ s) suffix = Server.endswith s suffix.
Proof.
  intros Hle. unfold Server.endswith. rewrite string_length_app.
  replace (String.length a + String.length s - String.length suffix)
    with (String.length a + (String.length s - String.length suffix)) by lia.
  rewrite substring_skip.
  by rewrite !(proj2 (Nat.leb_le _ _)) by lia.
Qed.

Lemma endswith_split (s suffix : string) :
  Server.endswith s suffix = true → ∃ a, s = a ++ suffix.
Proof.
  unfold Server.endswith. intros [Hle Heq]%andb_true_iff.
  apply Nat.leb_le in Hle. apply String.eqb_eq in Heq.
  exists (String.substring 0 (String.length s - String.length suffix) s).
  etrans;
    [apply (substring_split s (String.length s - String.length suffix));
     lia|].
  f_equal.
  replace (String.length s - (String.length s - String.length suffix))
    with (String.length suffix) by lia.
  exact Heq.
Qed.

Lemma wasm_is_not_js (path : string) :
  Server.endswith path ".wasm" = true → Server.endswith path ".js" = false.
Proof.
  intros [a ->]%endswith_split. rewrite endswith_app by (simpl; lia).
  reflexivity.
Qed.



(** X10: end_headers sends the two cross-origin isolation headers first,
    for every path; it sends 'application/wasm' exactly for the paths
    that end with '.wasm' and 'application/javascript' exactly for those
    that end with '.js', never both, so at most three headers. *)
Theorem end_headers_sent (path : string) :
  take 2 (Server.end_headers path)
  = [("Cross-Origin-Embedder-Policy", "require-corp");
     ("Cross-Origin-Opener-Policy", "same-origin")]
  ∧ (("Content-Type", "application/wasm") ∈ Server.end_headers path
     ↔ Server.endswith path ".wasm" = true)
  ∧ (("Content-Type", "application/javascript") ∈ Server.end_headers path
     ↔ Server.endswith path ".js" = true)
  ∧ (length (Server.end_headers path) ≤ 3)%nat.
Proof.
  unfold Server.end_headers.
  destruct (Server.endswith path ".wasm") eqn:Hw.
  - rewrite (wasm_is_not_js path Hw). simpl.
    split; [done|]. split; [|split; [|lia]].
    + split; [done|]. intros _. do 2 right. left.
    + split; [|done]. intros H.
      repeat (apply elem_of_cons in H as [H|H]; [discriminate H|]).
      by apply elem_of_nil in H.
  - destruct (Server.endswith path ".js") eqn:Hj; simpl.
    + split; [done|]. split; [|split; [|lia]].
      * split; [|done]. intros H.
        repeat (apply elem_of_cons in H as [H|H]; [discriminate H|]).
        by apply elem_of_nil in H.
      * split; [done|]. intros _. do 2 right. left.
    + split; [done|]. split; [|split; [|lia]].
      * split; [|done]. intros H.
        repeat (apply elem_of_cons in H as [H|H]; [discriminate H|]).
        by apply elem_of_nil in H.
      * split; [|done]. intros H.
        repeat (apply elem_of_cons in H as [H|H]; [discriminate H|]).
        by apply elem_of_nil in H.
Qed.

(** ** The further properties at the scenario of section 8 *)

(** X2, at the scenario: creating "other" raises the count from 1 to 2,
    creating "demo" again leaves it at 1. *)
Lemma root_counts_created_experiment_witness :
  root_active_experiments (root Demo.scenario) = 1
  ∧ (∃ r, (create_experiment other_request Demo.scenario).1 = inr r
          ∧ root_active_experiments
              (root (create_experiment other_request Demo.scenario).2) = 2)
  ∧ (∃ r, (create_experiment (Demo.request "score" false [Demo.x])
             Demo.scenario).1 = inr r
          ∧ root_active_experiments
              (root (create_experiment (Demo.request "score" false [Demo.x])
                       Demo.scenario).2) = 1).
Proof.
  split; [vm_compute; reflexivity|]. split.
  - assert (Hc : (create_experiment other_request Demo.scenario).1
                 = inr {| created_experiment_id := "other";
                          created_status := "created";
                          created_parameters := 1 |})
      by (vm_compute; reflexivity).
    eexists. split; [exact Hc|].
    etrans;
      [exact (proj1 (@root_counts_created_experiment Demo.engine
                       Demo.scenario other_request) _ Hc)|].
    vm_compute. reflexivity.
  - assert (Hc : (create_experiment (Demo.request "score" false [Demo.x])
                    Demo.scenario).1
                 = inr {| created_experiment_id := "demo";
                          created_status := "created";
                          created_parameters := 1 |})
      by (vm_compute; reflexivity).
    eexists. split; [exact Hc|].
    etrans;
      [exact (proj1 (@root_counts_created_experiment Demo.engine
                       Demo.scenario (Demo.request "score" false [Demo.x]))
                _ Hc)|].
    vm_compute. reflexivity.
Defined.

(** X4, at the scenario: get_best on an identifier that is no key fails
    with the 404. *)
Lemma failure_status_witness :
  (@handle Demo.engine (GetBest "other") Demo.scenario).1
  = inl ExperimentNotFound
  ∧ (status_code ExperimentNotFound = 404%Z
     ↔ experiments Demo.scenario !! "other" = None).
Proof.
  assert (H : (@handle Demo.engine (GetBest "other") Demo.scenario).1
              = inl ExperimentNotFound) by reflexivity.
  split; [exact H|].
  exact (proj1 (@failure_status Demo.engine Demo.scenario (GetBest "other")
                  ExperimentNotFound H)).
Defined.

(** X5, at a registry that holds "demo" and "other": a suggestion for
    "demo" issues trial 2 there and leaves the experiment under "other"
    as it was; a reload of "demo" from its checkpoint leaves it as it was,
    too. *)
Lemma other_entries_untouched_witness :
  experiments Demo.two !! "other" = Some (Some Demo.other_experiment)
  ∧ experiments (@handle Demo.engine (GetNextTrial "demo") Demo.two).2
      !! "other"
    = Some (Some Demo.other_experiment)
  ∧ experiments (@handle Demo.engine (GetNextTrial "demo") Demo.two).2
      !! "demo"
    ≠ experiments Demo.two !! "demo".
Proof.
  assert (H : experiments Demo.two !! "other"
              = Some (Some Demo.other_experiment))
    by (vm_compute; reflexivity).
  split; [exact H|]. split.
  - rewrite <- H.
    apply (@other_entries_untouched Demo.engine Demo.two
             (GetNextTrial "demo") "other").
    simpl. discriminate.
  - vm_compute. discriminate.
Defined.

(** X6, at the scenario and the four further requests: "demo" is still a
    key afterwards. *)
Lemma experiment_stays_found_witness :
  is_Some (experiments Demo.scenario !! "demo")
  ∧ is_Some
      (experiments (@run Demo.engine Demo.more_requests Demo.scenario).2
         !! "demo").
Proof.
  assert (H : is_Some (experiments Demo.scenario !! "demo"))
    by (vm_compute; eexists; reflexivity).
  split; [exact H|].
  exact (proj1 (@experiment_stays_found Demo.engine Demo.scenario
                  Demo.more_requests "demo" H)).
Defined.

(** X7, at the scenario: the engine answers with the means
    [("score", 7)], and get_best answers 7. *)
Lemma get_best_success_witness :
  (get_best "demo" Demo.scenario).1
  = inr {| best_parameters := [("x", PyFloat (Demo.number 0))];
           best_score := Demo.number 7 |}.
Proof.
  apply (proj2 (@get_best_success Demo.engine Demo.scenario "demo" _)).
  exists (Some Demo.scenario_experiment), [("score", Demo.number 7)], [].
  split; [vm_compute; reflexivity|]. split; [|reflexivity].
  vm_compute. reflexivity.
Defined.
